(** * The operator test harness of MACE: mace/ops/ops_test_util.cc

    A shallow embedding of the three components of the file:
    - [OpDefBuilder], the fluent builder of one operator definition;
    - [OpTestContext], the process-wide registry of devices;
    - [OpsTestNet], the harness that sets a net up, runs it and waits for the
      GPU.

    The protobuf messages, the workspace, the executor and the devices are
    declared outside this file of the repository; they are modelled here by
    what the code of ops_test_util.cc does with them. *)

From Stdlib Require Import ZArith String List Bool Lia.
From stdpp Require Import base option list strings gmap.

Local Open Scope string_scope.
Local Open Scope Z_scope.
Local Open Scope list_scope.

(* ===================================================================== *)
(** * Results of calls: a state monad with fatal aborts                   *)
(* ===================================================================== *)

(** A call either returns a value in a new state, or hits a fatal check
    (MACE_CHECK, MACE_CHECK_NOTNULL) and aborts the process; the state kept
    by [Fatal] is the state at the abort. *)
Inductive Result (S A : Type) : Type :=
  | Ok (a : A) (s : S)
  | Fatal (msg : string) (s : S).
Arguments Ok {S A} a s.
Arguments Fatal {S A} msg s.

Definition M (S A : Type) : Type := S → Result S A.

#[global] Instance M_ret {S} : MRet (M S) := λ A a s, Ok a s.
#[global] Instance M_bind {S} : MBind (M S) := λ A B f m s,
  match m s with
  | Ok a s' => f a s'
  | Fatal msg s' => Fatal msg s'
  end.

Definition get {S} : M S S := λ s, Ok s s.
Definition modify {S} (f : S → S) : M S unit := λ s, Ok tt (f s).

(** Modelled from the spec: the macro MACE_CHECK(condition, message) of the
    logging header, "explicit precondition checks that abort": nothing happens
    when the condition holds, the process aborts with the message otherwise. *)
Definition MACE_CHECK {S} (condition : bool) (msg : string) : M S unit :=
  λ s, if condition then Ok tt s else Fatal msg s.

Definition final_state {S A} (r : Result S A) : S :=
  match r with Ok _ s => s | Fatal _ s => s end.

Definition is_fatal {S A} (r : Result S A) : bool :=
  match r with Ok _ _ => false | Fatal _ _ => true end.

(* ===================================================================== *)
(** * Data model: the protobuf messages the file fills in                 *)
(* ===================================================================== *)

(** Modelled from the spec: the enumeration of tensor element types
    (mace.proto); DT_FLOAT is "the default floating-point type". *)
Inductive DataType : Set := DT_INVALID | DT_FLOAT | DT_UINT8 | DT_HALF | DT_INT32.

(** A C [float] is only stored and copied by this file, never computed with:
    it is kept as its 32-bit pattern. *)
Definition c_float : Type := Z.

(** Modelled from the spec: the Attribute message ("Argument" in the code),
    with the fields the builder sets: set_name, set_i, set_f, set_s, add_ints,
    add_floats. A fresh message has no scalar set and empty sequences. *)
Record Argument : Type := {
  arg_name : string;
  arg_f : option c_float;
  arg_i : option Z;
  arg_s : option string;
  arg_floats : list c_float;
  arg_ints : list Z
}.

Definition new_Argument : Argument :=
  {| arg_name := ""; arg_f := None; arg_i := None; arg_s := None;
     arg_floats := []; arg_ints := [] |}.

Definition set_name (name : string) (a : Argument) : Argument :=
  {| arg_name := name; arg_f := arg_f a; arg_i := arg_i a; arg_s := arg_s a;
     arg_floats := arg_floats a; arg_ints := arg_ints a |}.
Definition set_i (v : Z) (a : Argument) : Argument :=
  {| arg_name := arg_name a; arg_f := arg_f a; arg_i := Some v; arg_s := arg_s a;
     arg_floats := arg_floats a; arg_ints := arg_ints a |}.
Definition set_f (v : c_float) (a : Argument) : Argument :=
  {| arg_name := arg_name a; arg_f := Some v; arg_i := arg_i a; arg_s := arg_s a;
     arg_floats := arg_floats a; arg_ints := arg_ints a |}.
Definition set_s (v : string) (a : Argument) : Argument :=
  {| arg_name := arg_name a; arg_f := arg_f a; arg_i := arg_i a; arg_s := Some v;
     arg_floats := arg_floats a; arg_ints := arg_ints a |}.
Definition add_ints (v : Z) (a : Argument) : Argument :=
  {| arg_name := arg_name a; arg_f := arg_f a; arg_i := arg_i a; arg_s := arg_s a;
     arg_floats := arg_floats a; arg_ints := arg_ints a ++ [v] |}.
Definition add_floats (v : c_float) (a : Argument) : Argument :=
  {| arg_name := arg_name a; arg_f := arg_f a; arg_i := arg_i a; arg_s := arg_s a;
     arg_floats := arg_floats a ++ [v]; arg_ints := arg_ints a |}.

(** Modelled from the spec: the OperatorDefinition message: type, name,
    ordered inputs and outputs, declared output types and shapes, and the
    attributes in the order they were added. *)
Record OperatorDef : Type := {
  op_type : string;
  op_name : string;
  op_input : list string;
  op_output : list string;
  op_output_type : list DataType;
  op_output_shape : list (list Z);
  op_arg : list Argument
}.

Definition new_OperatorDef : OperatorDef :=
  {| op_type := ""; op_name := ""; op_input := []; op_output := [];
     op_output_type := []; op_output_shape := []; op_arg := [] |}.

Definition set_type (t : string) (d : OperatorDef) : OperatorDef :=
  {| op_type := t; op_name := op_name d; op_input := op_input d;
     op_output := op_output d; op_output_type := op_output_type d;
     op_output_shape := op_output_shape d; op_arg := op_arg d |}.
Definition set_op_name (n : string) (d : OperatorDef) : OperatorDef :=
  {| op_type := op_type d; op_name := n; op_input := op_input d;
     op_output := op_output d; op_output_type := op_output_type d;
     op_output_shape := op_output_shape d; op_arg := op_arg d |}.
Definition add_input (n : string) (d : OperatorDef) : OperatorDef :=
  {| op_type := op_type d; op_name := op_name d; op_input := op_input d ++ [n];
     op_output := op_output d; op_output_type := op_output_type d;
     op_output_shape := op_output_shape d; op_arg := op_arg d |}.
Definition add_output (n : string) (d : OperatorDef) : OperatorDef :=
  {| op_type := op_type d; op_name := op_name d; op_input := op_input d;
     op_output := op_output d ++ [n]; op_output_type := op_output_type d;
     op_output_shape := op_output_shape d; op_arg := op_arg d |}.
Definition add_output_type (t : DataType) (d : OperatorDef) : OperatorDef :=
  {| op_type := op_type d; op_name := op_name d; op_input := op_input d;
     op_output := op_output d; op_output_type := op_output_type d ++ [t];
     op_output_shape := op_output_shape d; op_arg := op_arg d |}.
Definition add_output_shape (dims : list Z) (d : OperatorDef) : OperatorDef :=
  {| op_type := op_type d; op_name := op_name d; op_input := op_input d;
     op_output := op_output d; op_output_type := op_output_type d;
     op_output_shape := op_output_shape d ++ [dims]; op_arg := op_arg d |}.
Definition add_arg (a : Argument) (d : OperatorDef) : OperatorDef :=
  {| op_type := op_type d; op_name := op_name d; op_input := op_input d;
     op_output := op_output d; op_output_type := op_output_type d;
     op_output_shape := op_output_shape d; op_arg := op_arg d ++ [a] |}.

(* ===================================================================== *)
(** * OpDefBuilder                                                        *)
(* ===================================================================== *)

Module Builder.

Record OpDefBuilder : Type := { op_def_ : OperatorDef }.

(** [OpDefBuilder::OpDefBuilder(const char *type, const std::string &name)] *)
Definition OpDefBuilder_new (type name : string) : OpDefBuilder :=
  {| op_def_ := set_op_name name (set_type type new_OperatorDef) |}.

(** The four methods declared [OpDefBuilder &]: they change the receiver and
    return a reference to it. The function gives the receiver after the
    call. *)
Definition Input (input_name : string) (this : OpDefBuilder) : OpDefBuilder :=
  {| op_def_ := add_input input_name (op_def_ this) |}.

Definition Output (output_name : string) (this : OpDefBuilder) : OpDefBuilder :=
  {| op_def_ := add_output output_name (op_def_ this) |}.

Definition OutputType (output_type : list DataType) (this : OpDefBuilder)
  : OpDefBuilder :=
  {| op_def_ := foldl (λ d out_t, add_output_type out_t d) (op_def_ this) output_type |}.

(** [auto shape = op_def_.add_output_shape(); for (s : output_shape)
    shape->add_dims(s)]: one new shape, filled in order. *)
Definition OutputShape (output_shape : list Z) (this : OpDefBuilder)
  : OpDefBuilder :=
  {| op_def_ := add_output_shape (foldl (λ dims s, dims ++ [s]) [] output_shape)
                                 (op_def_ this) |}.

(** The five methods declared [OpDefBuilder] (no [&]): they change the
    receiver and return [*this] by value. The function gives the receiver
    after the call and the returned copy. *)
Definition by_value (this : OpDefBuilder) : OpDefBuilder * OpDefBuilder :=
  (this, {| op_def_ := op_def_ this |}).

Definition AddIntArg (name : string) (value : Z) (this : OpDefBuilder)
  : OpDefBuilder * OpDefBuilder :=
  let arg := set_i value (set_name name new_Argument) in
  by_value {| op_def_ := add_arg arg (op_def_ this) |}.

Definition AddFloatArg (name : string) (value : c_float) (this : OpDefBuilder)
  : OpDefBuilder * OpDefBuilder :=
  let arg := set_f value (set_name name new_Argument) in
  by_value {| op_def_ := add_arg arg (op_def_ this) |}.

Definition AddStringArg (name : string) (value : string) (this : OpDefBuilder)
  : OpDefBuilder * OpDefBuilder :=
  let arg := set_s value (set_name name new_Argument) in
  by_value {| op_def_ := add_arg arg (op_def_ this) |}.

Definition AddIntsArg (name : string) (values : list Z) (this : OpDefBuilder)
  : OpDefBuilder * OpDefBuilder :=
  let arg := foldl (λ a value, add_ints value a) (set_name name new_Argument) values in
  by_value {| op_def_ := add_arg arg (op_def_ this) |}.

Definition AddFloatsArg (name : string) (values : list c_float) (this : OpDefBuilder)
  : OpDefBuilder * OpDefBuilder :=
  let arg := foldl (λ a value, add_floats value a) (set_name name new_Argument) values in
  by_value {| op_def_ := add_arg arg (op_def_ this) |}.

(** Destinations of [Finalize]: the OperatorDef objects of the caller, by
    address. A pointer is [None] (nullptr) or the address of one of them. *)
Abbreviation Destinations := (gmap nat OperatorDef).

Definition store (p : option nat) (d : OperatorDef) : M Destinations unit :=
  λ mem, match p with
         | Some a => Ok tt (<[a := d]> mem)
         | None => Fatal "null pointer dereference" mem
         end.

(** [void OpDefBuilder::Finalize(OperatorDef *op_def) const] *)
Definition Finalize (this : OpDefBuilder) (op_def : option nat) : M Destinations unit :=
  MACE_CHECK (bool_decide (op_def ≠ None)) "input should not be null." ;;
  store op_def (op_def_ this).

(** ** Call sequences, with the objects they act on *)

Inductive Call : Type :=
  | CInput (input_name : string)
  | COutput (output_name : string)
  | COutputType (output_type : list DataType)
  | COutputShape (output_shape : list Z)
  | CAddIntArg (name : string) (value : Z)
  | CAddFloatArg (name : string) (value : c_float)
  | CAddStringArg (name : string) (value : string)
  | CAddIntsArg (name : string) (values : list Z)
  | CAddFloatsArg (name : string) (values : list c_float).

(** The builder objects alive in a block, by location: the named builder and
    the temporaries the by-value methods return. *)
Abbreviation Objects := (list OpDefBuilder).

Definition by_reference (f : OpDefBuilder → OpDefBuilder) (this : nat) (σ : Objects)
  : option (Objects * nat) :=
  b ← σ !! this; Some (<[this := f b]> σ, this).

Definition returning_copy (f : OpDefBuilder → OpDefBuilder * OpDefBuilder)
    (this : nat) (σ : Objects) : option (Objects * nat) :=
  b ← σ !! this; Some (<[this := (f b).1]> σ ++ [(f b).2], length σ).

(** One call on the object at location [this]: the objects after the call and
    the location of the object the call evaluates to. *)
Definition invoke (c : Call) : nat → Objects → option (Objects * nat) :=
  match c with
  | CInput n => by_reference (Input n)
  | COutput n => by_reference (Output n)
  | COutputType ts => by_reference (OutputType ts)
  | COutputShape s => by_reference (OutputShape s)
  | CAddIntArg n v => returning_copy (AddIntArg n v)
  | CAddFloatArg n v => returning_copy (AddFloatArg n v)
  | CAddStringArg n v => returning_copy (AddStringArg n v)
  | CAddIntsArg n vs => returning_copy (AddIntsArg n vs)
  | CAddFloatsArg n vs => returning_copy (AddFloatsArg n vs)
  end.

(** A fluent chain [b.c1(..).c2(..)...]: each call acts on the object the
    previous call evaluated to. *)
Fixpoint chain (cs : list Call) (this : nat) (σ : Objects) : option (Objects * nat) :=
  match cs with
  | [] => Some (σ, this)
  | c :: cs' => '(σ', r) ← invoke c this σ; chain cs' r σ'
  end.



Definition returns_by_value (c : Call) : bool :=
  match c with
  | CInput _ | COutput _ | COutputType _ | COutputShape _ => false
  | _ => true
  end.



(** ** What a call sequence asks for *)

Definition inputs_of (cs : list Call) : list string :=
  omap (λ c, match c with CInput n => Some n | _ => None end) cs.
Definition outputs_of (cs : list Call) : list string :=
  omap (λ c, match c with COutput n => Some n | _ => None end) cs.
Definition output_types_of (cs : list Call) : list DataType :=
  cs ≫= (λ c, match c with COutputType ts => ts | _ => [] end).
Definition output_shapes_of (cs : list Call) : list (list Z) :=
  omap (λ c, match c with COutputShape s => Some s | _ => None end) cs.

(** The attribute one Add...Arg call describes: its name and its one value. *)
Definition attribute_of (c : Call) : option Argument :=
  match c with
  | CAddIntArg n v =>
      Some {| arg_name := n; arg_f := None; arg_i := Some v; arg_s := None;
              arg_floats := []; arg_ints := [] |}
  | CAddFloatArg n v =>
      Some {| arg_name := n; arg_f := Some v; arg_i := None; arg_s := None;
              arg_floats := []; arg_ints := [] |}
  | CAddStringArg n v =>
      Some {| arg_name := n; arg_f := None; arg_i := None; arg_s := Some v;
              arg_floats := []; arg_ints := [] |}
  | CAddIntsArg n vs =>
      Some {| arg_name := n; arg_f := None; arg_i := None; arg_s := None;
              arg_floats := []; arg_ints := vs |}
  | CAddFloatsArg n vs =>
      Some {| arg_name := n; arg_f := None; arg_i := None; arg_s := None;
              arg_floats := vs; arg_ints := [] |}
  | _ => None
  end.
Definition attributes_of (cs : list Call) : list Argument := omap attribute_of cs.

(** A definition with what the calls [cs] ask for added after what it
    holds. *)
Definition extended (d : OperatorDef) (cs : list Call) : OperatorDef :=
  {| op_type := op_type d; op_name := op_name d;
     op_input := op_input d ++ inputs_of cs;
     op_output := op_output d ++ outputs_of cs;
     op_output_type := op_output_type d ++ output_types_of cs;
     op_output_shape := op_output_shape d ++ output_shapes_of cs;
     op_arg := op_arg d ++ attributes_of cs |}.

(** The definition described by the constructor call and the calls [cs]. *)
Definition described (type name : string) (cs : list Call) : OperatorDef :=
  {| op_type := type; op_name := name;
     op_input := inputs_of cs; op_output := outputs_of cs;
     op_output_type := output_types_of cs;
     op_output_shape := output_shapes_of cs;
     op_arg := attributes_of cs |}.

End Builder.

(* ===================================================================== *)
(** * Devices, tensors and the net definition                             *)
(* ===================================================================== *)

(** Modelled from the spec: the device kinds, with the values of the public
    header (CPU = 0, GPU = 2, HEXAGON = 3). *)
Inductive DeviceType : Set := CPU | GPU | HEXAGON.

Definition DeviceType_value (d : DeviceType) : nat :=
  match d with CPU => 0 | GPU => 2 | HEXAGON => 3 end%nat.
Definition DeviceType_of_value (n : nat) : option DeviceType :=
  match n with 0 => Some CPU | 2 => Some GPU | 3 => Some HEXAGON | _ => None end%nat.

#[global] Instance DeviceType_eq_dec : EqDecision DeviceType.
Proof. solve_decision. Defined.
#[global] Instance DeviceType_countable : Countable DeviceType.
Proof.
  refine (inj_countable DeviceType_value DeviceType_of_value _).
  intros []; reflexivity.
Defined.

(** Modelled from the spec: the GPU memory layouts (buffer, image). *)
Inductive MemoryType : Set := CPU_BUFFER | GPU_BUFFER | GPU_IMAGE.

(** Modelled from the spec: a status "with a distinguishable success
    value". *)
Inductive MaceStatus : Set := MACE_SUCCESS | MACE_INVALID_ARGS | MACE_OUT_OF_RESOURCES.

Inductive CPUAffinityPolicy : Set := AFFINITY_NONE | AFFINITY_BIG_ONLY | AFFINITY_LITTLE_ONLY.
Inductive GPUPriorityHint : Set :=
  PRIORITY_DEFAULT | PRIORITY_LOW | PRIORITY_NORMAL | PRIORITY_HIGH.

#[global] Instance DataType_eq_dec : EqDecision DataType.
Proof. solve_decision. Defined.
#[global] Instance MemoryType_eq_dec : EqDecision MemoryType.
Proof. solve_decision. Defined.
#[global] Instance MaceStatus_eq_dec : EqDecision MaceStatus.
Proof. solve_decision. Defined.

(** Modelled from the spec: the GPU context, built from a storage path; its
    tuner and its cache storage are handed to the GPU device. Objects carry
    the number they were given when constructed, which is their identity. *)
Record GPUContext : Type := { gpu_context_id : nat; storage_path : string }.

Inductive DeviceImpl : Type :=
  | CPUDevice (num_threads : Z) (policy : CPUAffinityPolicy) (use_gemmlowp : bool)
  | GPUDevice (opencl_tuner opencl_cache_storage : nat) (hint : GPUPriorityHint).

Record Device : Type := { device_id : nat; device_impl : DeviceImpl }.

(** Modelled from the spec: a tensor of the workspace: shape, element type,
    weight flag (its storage is not looked at by this file). *)
Record Tensor : Type := {
  shape : list Z;
  dtype : DataType;
  is_weight : bool
}.

(** Modelled from the spec: the Workspace, a "mapping from tensor name to
    Tensor (unique keys)". [GetTensor] gives nullptr ([None]) for an absent
    name; [RemoveTensor] erases the entry when there is one. *)
Abbreviation Workspace := (gmap string Tensor).
Definition GetTensor (name : string) (ws : Workspace) : option Tensor := ws !! name.
Definition RemoveTensor (name : string) (ws : Workspace) : Workspace := delete name ws.

Record InputInfo : Type := { input_info_name : string; input_info_dims : list Z }.
Record OutputInfo : Type := { output_info_name : string; output_info_data_type : DataType }.

(** Modelled from the spec: the GraphDefinition message ("NetDef"): the
    operators and the derived input and output infos. *)
Record NetDef : Type := {
  net_op : list OperatorDef;
  net_input_info : list InputInfo;
  net_output_info : list OutputInfo
}.

Definition new_NetDef : NetDef :=
  {| net_op := []; net_input_info := []; net_output_info := [] |}.
Definition add_op (d : OperatorDef) (n : NetDef) : NetDef :=
  {| net_op := net_op n ++ [d]; net_input_info := net_input_info n;
     net_output_info := net_output_info n |}.
Definition add_input_info (i : InputInfo) (n : NetDef) : NetDef :=
  {| net_op := net_op n; net_input_info := net_input_info n ++ [i];
     net_output_info := net_output_info n |}.
Definition add_output_info (o : OutputInfo) (n : NetDef) : NetDef :=
  {| net_op := net_op n; net_input_info := net_input_info n;
     net_output_info := net_output_info n ++ [o] |}.

(** [static_cast<int>(d)] of an [index_t] (64 bits) to a 32-bit [int]. *)
Definition static_cast_int (d : Z) : Z := (d + 2 ^ 31) mod 2 ^ 32 - 2 ^ 31.

(** Accessors by index of the repeated fields; the code only calls them in
    range. *)
Definition output_size (d : OperatorDef) : nat := length (op_output d).
Definition output_type_size (d : OperatorDef) : nat := length (op_output_type d).
Definition output (d : OperatorDef) (i : nat) : string := default "" (op_output d !! i).
Definition output_type (d : OperatorDef) (i : nat) : DataType :=
  default DT_INVALID (op_output_type d !! i).

(* ===================================================================== *)
(** * The process: the registry singleton and the harness object          *)
(* ===================================================================== *)

Record OpTestContext : Type := {
  registry_id : nat;
  gpu_context_ : GPUContext;
  opencl_mem_types_ : list MemoryType;
  device_map_ : gmap DeviceType (option Device)
}.

(** The executor built by Setup and RunNet: what it was constructed from. *)
Record SerialNet : Type := { serial_net_def : NetDef; serial_net_device : option Device }.

(** What the harness asks of its collaborators, in order. *)
Inductive Event : Type :=
  | EvSetMemType (type : MemoryType)
  | EvNewSerialNet (net_def : NetDef) (device : option Device)
  | EvPreallocate (net_def : NetDef) (device : option Device) (status : MaceStatus)
  | EvInit (status : MaceStatus)
  | EvRun (status : MaceStatus)
  | EvFinish.

(** The state of a test process: the members of one [OpsTestNet], the
    function-local static of [OpTestContext::Get] ([None] until the first
    call), the number of objects constructed so far, the memory type of the
    GPU runtime, and the calls made to the collaborators so far. *)
Record State : Type := {
  ws_ : Workspace;
  op_defs_ : list OperatorDef;
  net_ : option SerialNet;
  device_type_ : DeviceType;
  instance : option OpTestContext;
  constructed : nat;
  mem_type : MemoryType;
  trace : list Event
}.

Definition with_ws (ws : Workspace) (s : State) : State :=
  {| ws_ := ws; op_defs_ := op_defs_ s; net_ := net_ s; device_type_ := device_type_ s;
     instance := instance s; constructed := constructed s; mem_type := mem_type s;
     trace := trace s |}.
Definition with_net (n : option SerialNet) (s : State) : State :=
  {| ws_ := ws_ s; op_defs_ := op_defs_ s; net_ := n; device_type_ := device_type_ s;
     instance := instance s; constructed := constructed s; mem_type := mem_type s;
     trace := trace s |}.
Definition with_device_type (d : DeviceType) (s : State) : State :=
  {| ws_ := ws_ s; op_defs_ := op_defs_ s; net_ := net_ s; device_type_ := d;
     instance := instance s; constructed := constructed s; mem_type := mem_type s;
     trace := trace s |}.
Definition with_instance (r : OpTestContext) (s : State) : State :=
  {| ws_ := ws_ s; op_defs_ := op_defs_ s; net_ := net_ s; device_type_ := device_type_ s;
     instance := Some r; constructed := constructed s; mem_type := mem_type s;
     trace := trace s |}.
Definition with_constructed (n : nat) (s : State) : State :=
  {| ws_ := ws_ s; op_defs_ := op_defs_ s; net_ := net_ s; device_type_ := device_type_ s;
     instance := instance s; constructed := n; mem_type := mem_type s;
     trace := trace s |}.
Definition with_mem_type (t : MemoryType) (s : State) : State :=
  {| ws_ := ws_ s; op_defs_ := op_defs_ s; net_ := net_ s; device_type_ := device_type_ s;
     instance := instance s; constructed := constructed s; mem_type := t;
     trace := trace s |}.
Definition with_event (e : Event) (s : State) : State :=
  {| ws_ := ws_ s; op_defs_ := op_defs_ s; net_ := net_ s; device_type_ := device_type_ s;
     instance := instance s; constructed := constructed s; mem_type := mem_type s;
     trace := trace s ++ [e] |}.
Definition emit (e : Event) : M State unit := modify (with_event e).

(** The collaborators of the file and what its header fixes: the environment
    of the process, the default arguments of [OpTestContext::Get], whether
    the file is compiled with MACE_ENABLE_OPENCL, and the three calls whose
    code is elsewhere: the workspace's preallocation and the executor's Init
    and Run. Each of these gives a status and the workspace it leaves, and
    may depend on everything that happened so far. *)
Record Collaborators : Type := {
  getenv : string → option string;
  default_num_threads : Z;
  default_cpu_affinity_policy : CPUAffinityPolicy;
  default_use_gemmlowp : bool;
  MACE_ENABLE_OPENCL : bool;
  ws_PreallocateOutputTensor : NetDef → option Device → State → MaceStatus * Workspace;
  net_Init : SerialNet → State → MaceStatus * Workspace;
  net_Run : SerialNet → State → MaceStatus * Workspace
}.

Section Code.
Context (E : Collaborators).

(* ===================================================================== *)
(** * OpTestContext                                                       *)
(* ===================================================================== *)

Definition GetStoragePathFromEnv : string :=
  match getenv E "MACE_INTERNAL_STORAGE_PATH" with
  | None => ""
  | Some storage_path_str => storage_path_str
  end.

(** [OpTestContext::OpTestContext]: the GPU context and the image-only list
    of memory types in the member initialisers, then the two devices. *)
Definition OpTestContext_new (num_threads : Z) (cpu_affinity_policy : CPUAffinityPolicy)
    (use_gemmlowp : bool) : M State OpTestContext :=
  s ← get;
  let n := constructed s in
  let gpu_context := {| gpu_context_id := S n; storage_path := GetStoragePathFromEnv |} in
  let cpu := {| device_id := S (S n);
                device_impl := CPUDevice num_threads cpu_affinity_policy use_gemmlowp |} in
  let gpu := {| device_id := S (S (S n));
                device_impl := GPUDevice (gpu_context_id gpu_context)
                                         (gpu_context_id gpu_context) PRIORITY_NORMAL |} in
  modify (with_constructed (S (S (S (S n)))));;
  mret {| registry_id := n; gpu_context_ := gpu_context;
          opencl_mem_types_ := [GPU_IMAGE];
          device_map_ := <[GPU := Some gpu]> (<[CPU := Some cpu]> ∅) |}.

(** [OpTestContext::Get]: [static OpTestContext instance(...)] is constructed
    by the first call that reaches it; the call returns its address. *)
Definition Get (num_threads : Z) (cpu_affinity_policy : CPUAffinityPolicy)
    (use_gemmlowp : bool) : M State nat :=
  s ← get;
  match instance s with
  | Some r => mret (registry_id r)
  | None =>
      r ← OpTestContext_new num_threads cpu_affinity_policy use_gemmlowp;
      modify (with_instance r);;
      mret (registry_id r)
  end.

(** [OpTestContext::Get()] with the default arguments of the header. *)
Definition Get_default : M State nat :=
  Get (default_num_threads E) (default_cpu_affinity_policy E) (default_use_gemmlowp E).

(** The receiver of a method called through the pointer [Get] returned. No
    such pointer exists before the first [Get]. *)
Definition this_instance : M State OpTestContext :=
  λ s, match instance s with
       | Some r => Ok r s
       | None => Fatal "OpTestContext used before OpTestContext::Get" s
       end.

Definition gpu_context : M State GPUContext :=
  r ← this_instance; mret (gpu_context_ r).

(** [device_map_[device_type].get()]: [operator[]] of std::map adds a null
    entry for a kind that has none. *)
Definition GetDevice (device_type : DeviceType) : M State (option Device) :=
  r ← this_instance;
  match device_map_ r !! device_type with
  | Some p => mret p
  | None =>
      modify (with_instance
                {| registry_id := registry_id r; gpu_context_ := gpu_context_ r;
                   opencl_mem_types_ := opencl_mem_types_ r;
                   device_map_ := <[device_type := None]> (device_map_ r) |});;
      mret None
  end.

Definition opencl_mem_types : M State (list MemoryType) :=
  r ← this_instance; mret (opencl_mem_types_ r).

Definition set_opencl_mem_types_ (types : list MemoryType) : M State unit :=
  r ← this_instance;
  modify (with_instance
            {| registry_id := registry_id r; gpu_context_ := gpu_context_ r;
               opencl_mem_types_ := types; device_map_ := device_map_ r |}).

Definition SetOCLBufferTestFlag : M State unit := set_opencl_mem_types_ [GPU_BUFFER].
Definition SetOCLImageTestFlag : M State unit := set_opencl_mem_types_ [GPU_IMAGE].
Definition SetOCLImageAndBufferTestFlag : M State unit :=
  set_opencl_mem_types_ [GPU_IMAGE; GPU_BUFFER].

(** [device->gpu_runtime()->set_mem_type(type)]; only a GPU device has a GPU
    runtime. *)
Definition set_mem_type (device : option Device) (type : MemoryType) : M State unit :=
  match device with
  | Some {| device_impl := GPUDevice _ _ _ |} =>
      modify (with_mem_type type);; emit (EvSetMemType type)
  | _ => λ s, Fatal "no GPU runtime" s
  end.

(* ===================================================================== *)
(** * OpsTestNet                                                          *)
(* ===================================================================== *)

(** Lines 165-175: one InputInfo per input of the operator that has a
    tensor in the workspace which is not a weight. *)
Definition Setup_inputs (op_def : OperatorDef) (ws : Workspace) (net_def : NetDef) : NetDef :=
  foldl (λ net_def input,
           match GetTensor input ws with
           | Some t =>
               if negb (is_weight t)
               then add_input_info
                      {| input_info_name := input;
                         input_info_dims :=
                           foldl (λ dims d, dims ++ [static_cast_int d]) [] (shape t) |}
                      net_def
               else net_def
           | None => net_def
           end)
        net_def (op_input op_def).

(** Lines 177-186: for each output index, the tensor of that name leaves the
    workspace and one OutputInfo is recorded. *)
Definition Setup_output (op_def : OperatorDef) (acc : Workspace * NetDef) (i : nat)
  : Workspace * NetDef :=
  let ws := RemoveTensor (output op_def i) acc.1 in
  let data_type :=
    if decide (output_type_size op_def = output_size op_def)
    then output_type op_def i
    else DT_FLOAT in
  (ws, add_output_info {| output_info_name := output op_def i;
                          output_info_data_type := data_type |} acc.2).

Definition Setup_outputs (op_def : OperatorDef) (acc : Workspace * NetDef)
  : Workspace * NetDef :=
  foldl (Setup_output op_def) acc (seq 0 (output_size op_def)).

(** Lines 161-187: the loop over [op_defs_]. *)
Definition Setup_op (acc : Workspace * NetDef) (op_def : OperatorDef) : Workspace * NetDef :=
  let net_def := add_op op_def acc.2 in
  let net_def := Setup_inputs op_def acc.1 net_def in
  Setup_outputs op_def (acc.1, net_def).

Definition Setup_net_def (op_defs : list OperatorDef) (ws : Workspace) : Workspace * NetDef :=
  foldl Setup_op (ws, new_NetDef) op_defs.

(** The calls to the collaborators, recorded as they are made. *)
Definition new_SerialNet (net_def : NetDef) (device : option Device) : M State unit :=
  modify (with_net (Some {| serial_net_def := net_def; serial_net_device := device |}));;
  emit (EvNewSerialNet net_def device).

Definition PreallocateOutputTensor (net_def : NetDef) (device : option Device)
  : M State MaceStatus :=
  s ← get;
  let r := ws_PreallocateOutputTensor E net_def device s in
  modify (with_ws r.2);;
  emit (EvPreallocate net_def device r.1);;
  mret r.1.

Definition call_net (what : SerialNet → State → MaceStatus * Workspace)
    (ev : MaceStatus → Event) : M State MaceStatus :=
  s ← get;
  match net_ s with
  | Some net =>
      let r := what net s in
      modify (with_ws r.2);; emit (ev r.1);; mret r.1
  | None => λ s, Fatal "null pointer dereference" s
  end.

Definition Init : M State MaceStatus := call_net (net_Init E) EvInit.
Definition net_run : M State MaceStatus := call_net (net_Run E) EvRun.

(** Modelled from the spec: MACE_RETURN_IF_ERROR(stmt) of the public header:
    a status that is not MACE_SUCCESS is returned at once, "propagated upward
    unchanged via early return". *)
Definition MACE_RETURN_IF_ERROR (stmt : M State MaceStatus) (rest : M State MaceStatus)
  : M State MaceStatus :=
  status ← stmt;
  if decide (status ≠ MACE_SUCCESS) then mret status else rest.

(** [bool OpsTestNet::Setup(mace::DeviceType device)] *)
Definition Setup (device : DeviceType) : M State bool :=
  s ← get;
  let built := Setup_net_def (op_defs_ s) (ws_ s) in
  let net_def := built.2 in
  modify (with_ws built.1);;
  Get_default;;
  dev ← GetDevice device;
  new_SerialNet net_def dev;;
  Get_default;;
  dev ← GetDevice device;
  status ← PreallocateOutputTensor net_def dev;
  if decide (status ≠ MACE_SUCCESS) then mret false
  else
    status ← Init;
    modify (with_device_type device);;
    mret (bool_decide (status = MACE_SUCCESS)).

(** [void OpsTestNet::Sync()] *)
Definition Sync : M State unit :=
  if MACE_ENABLE_OPENCL E then
    s ← get;
    if bool_decide (net_ s ≠ None) && bool_decide (device_type_ s = GPU) then
      Get_default;;
      GetDevice GPU;;
      emit EvFinish
    else mret tt
  else mret tt.

(** [MaceStatus OpsTestNet::Run()]; MACE_CHECK_NOTNULL is the fatal check
    that the pointer is not null. *)
Definition Run : M State MaceStatus :=
  s ← get;
  MACE_CHECK (bool_decide (net_ s ≠ None)) "net_ must not be null";;
  MACE_RETURN_IF_ERROR net_run
    (Sync;; mret MACE_SUCCESS).

(** The body of the loop of RunOp over the permitted memory types. *)
Fixpoint RunOp_loop (device : DeviceType) (types : list MemoryType) : M State MaceStatus :=
  match types with
  | [] => mret MACE_SUCCESS
  | type :: rest =>
      Get_default;;
      dev ← GetDevice device;
      set_mem_type dev type;;
      Setup device;;
      MACE_RETURN_IF_ERROR Run (RunOp_loop device rest)
  end.

(** [MaceStatus OpsTestNet::RunOp(mace::DeviceType device)] *)
Definition RunOp (device : DeviceType) : M State MaceStatus :=
  if decide (device = GPU) then
    Get_default;;
    types ← opencl_mem_types;
    RunOp_loop device types
  else
    Setup device;;
    Run.

(** [MaceStatus OpsTestNet::RunOp()] *)
Definition RunOp_default : M State MaceStatus := RunOp CPU.

(** [MaceStatus OpsTestNet::RunNet(const NetDef &net_def, DeviceType device)] *)
Definition RunNet (net_def : NetDef) (device : DeviceType) : M State MaceStatus :=
  modify (with_device_type device);;
  Get_default;;
  dev ← GetDevice device;
  new_SerialNet net_def dev;;
  Get_default;;
  dev ← GetDevice device;
  MACE_RETURN_IF_ERROR (PreallocateOutputTensor net_def dev)
    (MACE_RETURN_IF_ERROR Init
       net_run).

End Code.

(* ===================================================================== *)
(** * Calls a test makes, one after the other                             *)
(* ===================================================================== *)

(** The entry points of the file that a test can call on the registry and
    on its harness object. *)
Inductive ApiCall : Type :=
  | CallGet (num_threads : Z) (cpu_affinity_policy : CPUAffinityPolicy) (use_gemmlowp : bool)
  | CallGetDevice (device_type : DeviceType)
  | Call_gpu_context
  | Call_opencl_mem_types
  | CallSetOCLBufferTestFlag
  | CallSetOCLImageTestFlag
  | CallSetOCLImageAndBufferTestFlag
  | CallSetup (device : DeviceType)
  | CallRun
  | CallRunOp (device : DeviceType)
  | CallRunNet (net_def : NetDef) (device : DeviceType)
  | CallSync.

Definition is_layout_setter (c : ApiCall) : bool :=
  match c with
  | CallSetOCLBufferTestFlag | CallSetOCLImageTestFlag
  | CallSetOCLImageAndBufferTestFlag => true
  | _ => false
  end.

Definition perform (E : Collaborators) (c : ApiCall) : M State unit :=
  match c with
  | CallGet n p g => Get E n p g;; mret tt
  | CallGetDevice d => GetDevice d;; mret tt
  | Call_gpu_context => gpu_context;; mret tt
  | Call_opencl_mem_types => opencl_mem_types;; mret tt
  | CallSetOCLBufferTestFlag => SetOCLBufferTestFlag
  | CallSetOCLImageTestFlag => SetOCLImageTestFlag
  | CallSetOCLImageAndBufferTestFlag => SetOCLImageAndBufferTestFlag
  | CallSetup d => Setup E d;; mret tt
  | CallRun => Run E;; mret tt
  | CallRunOp d => RunOp E d;; mret tt
  | CallRunNet nd d => RunNet E nd d;; mret tt
  | CallSync => Sync E
  end.

Fixpoint perform_all (E : Collaborators) (cs : list ApiCall) : M State unit :=
  match cs with
  | [] => mret tt
  | c :: cs' => perform E c;; perform_all E cs'
  end.

(* ===================================================================== *)
(** * Vocabulary of the statements                                        *)
(* ===================================================================== *)

(** The output infos the specification asks for one operator: the declared
    type at the matching position when there are as many declared types as
    outputs, the default floating-point type for every output otherwise. *)
Definition declared_output_infos (op_def : OperatorDef) : list OutputInfo :=
  if decide (length (op_output_type op_def) = length (op_output op_def))
  then zip_with (λ n t, {| output_info_name := n; output_info_data_type := t |})
                (op_output op_def) (op_output_type op_def)
  else (λ n, {| output_info_name := n; output_info_data_type := DT_FLOAT |})
         <$> op_output op_def.

(** The names that are an output of some operator of the list. *)
Definition declared_outputs (op_defs : list OperatorDef) : list string :=
  op_defs ≫= op_output.

(** The memory types RunOp(GPU) goes through from a state: those of the
    registry, or those a registry constructed now would have. *)
Definition permitted_mem_types (s : State) : list MemoryType :=
  match instance s with
  | Some r => opencl_mem_types_ r
  | None => [GPU_IMAGE]
  end.

(** The device [GetDevice] gives for a kind: the entry of the map, null when
    there is none. *)
Definition device_of (device_type : DeviceType) (s : State) : option Device :=
  match instance s with
  | Some r => default None (device_map_ r !! device_type)
  | None => None
  end.

(** Whether [Sync] waits for the queue of the GPU: the file is compiled with
    OpenCL, there is an executor, and the device kind recorded last is GPU. *)
Definition waits_for_gpu (E : Collaborators) (s : State) : bool :=
  MACE_ENABLE_OPENCL E && (bool_decide (net_ s ≠ None) && bool_decide (device_type_ s = GPU)).

(** The memory types are those of the constructor as long as no setter is
    called. *)
Definition image_only (s : State) : Prop := permitted_mem_types s = [GPU_IMAGE].

(** The statuses of the preallocations, of the calls to Init and of the
    calls to the executor's run among some calls, in order. *)
Definition preallocations_of (evs : list Event) : list MaceStatus :=
  omap (λ e, match e with EvPreallocate _ _ st => Some st | _ => None end) evs.
Definition inits_of (evs : list Event) : list MaceStatus :=
  omap (λ e, match e with EvInit st => Some st | _ => None end) evs.
Definition runs_of (evs : list Event) : list MaceStatus :=
  omap (λ e, match e with EvRun st => Some st | _ => None end) evs.
Definition mem_types_of (evs : list Event) : list MemoryType :=
  omap (λ e, match e with EvSetMemType t => Some t | _ => None end) evs.

(** The calls of one pass of Setup: the executor is constructed, the outputs
    are preallocated, and Init is called when the preallocation succeeded. *)
Inductive setup_calls : list Event → Prop :=
  | setup_calls_no_init nd dev st :
      st ≠ MACE_SUCCESS →
      setup_calls [EvNewSerialNet nd dev; EvPreallocate nd dev st]
  | setup_calls_init nd dev st :
      setup_calls [EvNewSerialNet nd dev; EvPreallocate nd dev MACE_SUCCESS; EvInit st].

(** The calls of [Run] whose executor returned [status]: nothing after a
    failure; after a success, at most the wait for the GPU queue. *)
Inductive run_calls (status : MaceStatus) : list Event → Prop :=
  | run_calls_only : run_calls status [EvRun status]
  | run_calls_finish : status = MACE_SUCCESS → run_calls status [EvRun status; EvFinish].

(** One full cycle of RunOp(GPU) for the memory type [type], whose Run
    returned [status]: the type is made the active one, then Setup, then
    Run. *)
Inductive full_cycle (type : MemoryType) (status : MaceStatus) : list Event → Prop :=
  | full_cycle_intro setup run :
      setup_calls setup → run_calls status run →
      full_cycle type status (EvSetMemType type :: setup ++ run).

(** One cycle of RunOp(GPU) as it was observed: the memory type it was for,
    the status its Run returned, and the calls it made. *)
Record Cycle : Type := {
  cycle_type : MemoryType;
  cycle_status : MaceStatus;
  cycle_calls : list Event
}.

Definition is_full_cycle (c : Cycle) : Prop :=
  full_cycle (cycle_type c) (cycle_status c) (cycle_calls c).

(** The registry as its constructor leaves it: a CPU device and a GPU device
    are in the map, and the GPU one has a GPU runtime. *)
Definition registry_ok (r : OpTestContext) : Prop :=
  ∃ cpu gpu t c h,
    device_map_ r !! CPU = Some (Some cpu) ∧
    device_map_ r !! GPU = Some (Some gpu) ∧
    device_impl gpu = GPUDevice t c h.

Definition well_formed (s : State) : Prop :=
  match instance s with
  | Some r => registry_ok r
  | None => True
  end.

(** A predicate that only looks at the registry. *)
Definition about_registry (I : State → Prop) : Prop :=
  ∀ s s', instance s' = instance s → I s → I s'.

(** A state predicate that a call keeps, whether it returns or aborts. *)
Definition stable {A} (I : State → Prop) (m : M State A) : Prop :=
  ∀ s, I s → I (final_state (m s)).

(** The members of the harness object, the GPU memory type and the calls
    made so far: what the registry's own functions leave alone. *)
Definition harness_of (s : State) :=
  (ws_ s, op_defs_ s, net_ s, device_type_ s, mem_type s, trace s).

(** The registry holds the CPU and GPU devices [cpu] and [gpu] and is the
    object [id]. *)
Definition holds_devices (id : nat) (cpu gpu : Device) (s : State) : Prop :=
  ∃ r, instance s = Some r ∧ registry_id r = id ∧
       device_map_ r !! CPU = Some (Some cpu) ∧ device_map_ r !! GPU = Some (Some gpu).

(** ** Concrete processes and collaborators, for the examples *)

Definition answering (prealloc init run : MaceStatus) (opencl : bool) : Collaborators :=
  {| getenv := λ _, None;
     default_num_threads := -1;
     default_cpu_affinity_policy := AFFINITY_BIG_ONLY;
     default_use_gemmlowp := true;
     MACE_ENABLE_OPENCL := opencl;
     ws_PreallocateOutputTensor := λ _ _ s, (prealloc, ws_ s);
     net_Init := λ _ s, (init, ws_ s);
     net_Run := λ _ s, (run, ws_ s) |}.

Definition process_start (ws : Workspace) (op_defs : list OperatorDef) : State :=
  {| ws_ := ws; op_defs_ := op_defs; net_ := None; device_type_ := CPU;
     instance := None; constructed := 0; mem_type := GPU_IMAGE; trace := [] |}.

(** A test of one operator: AddN of "a" and "b" into "c". *)
Definition AddN_a_b_c : OperatorDef :=
  {| op_type := "AddN"; op_name := "AddNTest"; op_input := ["a"; "b"];
     op_output := ["c"]; op_output_type := []; op_output_shape := []; op_arg := [] |}.

Definition tensor_1d (n : Z) : Tensor :=
  {| shape := [n]; dtype := DT_FLOAT; is_weight := false |}.

Definition AddN_process : State :=
  process_start (<["c" := tensor_1d 3]> (<["b" := tensor_1d 3]> (<["a" := tensor_1d 3]> ∅)))
                [AddN_a_b_c].

Definition AddN_net_def : NetDef := (Setup_net_def [AddN_a_b_c] (ws_ AddN_process)).2.

(** The devices the first registry of a process gets when it is constructed
    with the default arguments of [answering]. *)
Definition first_cpu : Device :=
  {| device_id := 2; device_impl := CPUDevice (-1) AFFINITY_BIG_ONLY true |}.
Definition first_gpu : Device :=
  {| device_id := 3; device_impl := GPUDevice 1 1 PRIORITY_NORMAL |}.

(** The process after a test chose both memory types. *)
Definition AddN_process_both (E : Collaborators) : State :=
  final_state ((Get_default E ≫= λ _, SetOCLImageAndBufferTestFlag) AddN_process).

Definition new_calls {A} (s : State) (r : Result State A) : list Event :=
  drop (length (trace s)) (trace (final_state r)).

Definition returned {A} (r : Result State A) : option A :=
  match r with Ok a _ => Some a | Fatal _ _ => None end.

(** ** Vocabulary of the further properties *)

(** The input infos one operator adds to the net definition, given the
    workspace at that point of the loop: one per input, in order, that has a
    tensor which is not a weight, with the tensor's shape cast to int. *)
Definition input_infos_of (op_def : OperatorDef) (ws : Workspace) : list InputInfo :=
  omap (λ input,
          t ← ws !! input;
          if is_weight t then None
          else Some {| input_info_name := input;
                       input_info_dims := static_cast_int <$> shape t |})
       (op_input op_def).

(** The calls of a fluent chain that reach the builder it starts from: those
    up to and including the first call of a method that returns by value. *)
Fixpoint up_to_first_by_value (cs : list Builder.Call) : list Builder.Call :=
  match cs with
  | [] => []
  | c :: cs' =>
      if Builder.returns_by_value c then [c] else c :: up_to_first_by_value cs'
  end.

(** A dimension that fits a 32-bit int. *)
Definition fits_int (d : Z) : Prop := - 2 ^ 31 ≤ d < 2 ^ 31.

(** A predicate that only looks at the members of the harness object, the
    GPU memory type and the calls made so far. *)
Definition about_harness (I : State → Prop) : Prop :=
  ∀ s s', harness_of s' = harness_of s → I s → I s'.

(** The calls that can set the memory type of the GPU runtime. *)
Definition is_RunOp_GPU (c : ApiCall) : bool :=
  match c with
  | CallRunOp GPU => true
  | _ => false
  end.

(** The registry holds the GPU context [ctx]. *)
Definition holds_gpu_context (ctx : GPUContext) (s : State) : Prop :=
  ∃ r, instance s = Some r ∧ gpu_context_ r = ctx.

(** The registry has a device for the CPU and GPU kinds only: a lookup of
    HEXAGON finds nothing or a null entry. *)
Definition no_other_device (s : State) : Prop :=
  ∀ r, instance s = Some r → default None (device_map_ r !! HEXAGON) = None.

(** A process in which an earlier operator produces the input of a later
    one, and a weight is among the inputs. *)
Definition Conv_then_Relu : list OperatorDef :=
  [ {| op_type := "Conv2D"; op_name := "conv"; op_input := ["image"; "filter"];
       op_output := ["mid"]; op_output_type := [DT_FLOAT]; op_output_shape := [];
       op_arg := [] |};
    {| op_type := "Activation"; op_name := "relu"; op_input := ["mid"];
       op_output := ["out"]; op_output_type := []; op_output_shape := [];
       op_arg := [] |} ].

Definition Conv_then_Relu_ws : Workspace :=
  <["mid" := tensor_1d 8]>
    (<["filter" := {| shape := [3; 3]; dtype := DT_FLOAT; is_weight := true |}]>
       (<["image" := tensor_1d 8]> ∅)).

(* ===================================================================== *)
(** * Facts about OpDefBuilder                                            *)
(* ===================================================================== *)

Section BuilderFacts.
Import Builder.

Lemma foldl_snoc {A} (l acc : list A) :
  foldl (λ dims s, dims ++ [s]) acc l = acc ++ l.
Proof.
  revert acc. induction l as [|x l IH]; intros acc; simpl.
  - by rewrite app_nil_r.
  - rewrite IH. by rewrite <- app_assoc.
Qed.

Lemma foldl_add_output_type (ts : list DataType) (d : OperatorDef) :
  foldl (λ d out_t, add_output_type out_t d) d ts =
  {| op_type := op_type d; op_name := op_name d; op_input := op_input d;
     op_output := op_output d; op_output_type := op_output_type d ++ ts;
     op_output_shape := op_output_shape d; op_arg := op_arg d |}.
Proof.
  revert d. induction ts as [|t ts IH]; intros d; simpl.
  - rewrite app_nil_r. by destruct d.
  - rewrite IH. simpl. by rewrite <- app_assoc.
Qed.

Lemma foldl_add_ints (vs : list Z) (a : Argument) :
  foldl (λ a value, add_ints value a) a vs =
  {| arg_name := arg_name a; arg_f := arg_f a; arg_i := arg_i a; arg_s := arg_s a;
     arg_floats := arg_floats a; arg_ints := arg_ints a ++ vs |}.
Proof.
  revert a. induction vs as [|v vs IH]; intros a; simpl.
  - rewrite app_nil_r. by destruct a.
  - rewrite IH. simpl. by rewrite <- app_assoc.
Qed.

Lemma foldl_add_floats (vs : list c_float) (a : Argument) :
  foldl (λ a value, add_floats value a) a vs =
  {| arg_name := arg_name a; arg_f := arg_f a; arg_i := arg_i a; arg_s := arg_s a;
     arg_floats := arg_floats a ++ vs; arg_ints := arg_ints a |}.
Proof.
  revert a. induction vs as [|v vs IH]; intros a; simpl.
  - rewrite app_nil_r. by destruct a.
  - rewrite IH. simpl. by rewrite <- app_assoc.
Qed.

Lemma extended_nil (d : OperatorDef) : extended d [] = d.
Proof. destruct d. unfold extended. simpl. by rewrite !app_nil_r. Qed.

Lemma extended_cons (d : OperatorDef) (c : Call) (cs : list Call) :
  extended (extended d [c]) cs = extended d (c :: cs).
Proof.
  unfold extended; simpl. f_equal; rewrite <- app_assoc; f_equal.
  all: unfold inputs_of, outputs_of, output_shapes_of, attributes_of; simpl.
  all: try (destruct c; simpl; reflexivity).
  unfold output_types_of. simpl. by rewrite app_nil_r.
Qed.

Lemma described_extended (type name : string) (cs : list Call) :
  extended (op_def_ (OpDefBuilder_new type name)) cs = described type name cs.
Proof. reflexivity. Qed.

(** What one call does to the objects: the object it evaluates to, and the
    receiver itself, both hold the receiver's definition with the call
    added; no object disappears. *)
Lemma invoke_extended (c : Call) (this : nat) (σ : Objects) (b : OpDefBuilder) :
  σ !! this = Some b →
  ∃ σ' l b' b'',
    invoke c this σ = Some (σ', l) ∧
    σ' !! l = Some b' ∧ op_def_ b' = extended (op_def_ b) [c] ∧
    σ' !! this = Some b'' ∧ op_def_ b'' = extended (op_def_ b) [c].
Proof.
  intros Hb.
  assert (Hlt : (this < length σ)%nat) by (eapply lookup_lt_Some; eassumption).
  assert (Href : ∀ f, op_def_ (f b) = extended (op_def_ b) [c] →
            ∃ σ' l b' b'', by_reference f this σ = Some (σ', l) ∧
              σ' !! l = Some b' ∧ op_def_ b' = extended (op_def_ b) [c] ∧
              σ' !! this = Some b'' ∧ op_def_ b'' = extended (op_def_ b) [c]).
  { intros f Hf. exists (<[this := f b]> σ), this, (f b), (f b).
    unfold by_reference. rewrite Hb. simpl.
    rewrite list_lookup_insert_eq by assumption. auto. }
  assert (Hval : ∀ f, op_def_ (f b).1 = extended (op_def_ b) [c] →
            op_def_ (f b).2 = extended (op_def_ b) [c] →
            ∃ σ' l b' b'', returning_copy f this σ = Some (σ', l) ∧
              σ' !! l = Some b' ∧ op_def_ b' = extended (op_def_ b) [c] ∧
              σ' !! this = Some b'' ∧ op_def_ b'' = extended (op_def_ b) [c]).
  { intros f Hf1 Hf2.
    exists (<[this := (f b).1]> σ ++ [(f b).2]), (length σ), (f b).2, (f b).1.
    unfold returning_copy. rewrite Hb. simpl. split; [reflexivity|].
    split.
    { rewrite lookup_app_r by (rewrite length_insert; lia).
      rewrite length_insert, Nat.sub_diag. reflexivity. }
    split; [assumption|]. split; [|assumption].
    rewrite lookup_app_l by (rewrite length_insert; lia).
    by rewrite list_lookup_insert_eq. }
  destruct c; simpl.
  - apply Href. unfold extended; destruct b as [d]; simpl.
    unfold add_input. by rewrite !app_nil_r.
  - apply Href. unfold extended; destruct b as [d]; simpl.
    unfold add_output. by rewrite !app_nil_r.
  - apply Href. unfold extended; destruct b as [d]; simpl.
    rewrite foldl_add_output_type. unfold output_types_of. simpl.
    by rewrite !app_nil_r.
  - apply Href. unfold extended; destruct b as [d]; simpl.
    rewrite foldl_snoc. unfold add_output_shape. simpl. by rewrite !app_nil_r.
  - apply Hval; unfold extended; destruct b as [d]; simpl;
      unfold add_arg; simpl; by rewrite !app_nil_r.
  - apply Hval; unfold extended; destruct b as [d]; simpl;
      unfold add_arg; simpl; by rewrite !app_nil_r.
  - apply Hval; unfold extended; destruct b as [d]; simpl;
      unfold add_arg; simpl; by rewrite !app_nil_r.
  - apply Hval; unfold extended; destruct b as [d]; simpl;
      rewrite foldl_add_ints; unfold add_arg; simpl; by rewrite !app_nil_r.
  - apply Hval; unfold extended; destruct b as [d]; simpl;
      rewrite foldl_add_floats; unfold add_arg; simpl; by rewrite !app_nil_r.
Qed.




(** The objects after one call: the receiver holds its definition with the
    call added, a method that returns by value adds a copy of the receiver
    as a new object, and no other object changes. *)
Lemma invoke_objects (c : Call) (this : nat) (σ : Objects) (b : OpDefBuilder) :
  σ !! this = Some b →
  ∃ b', op_def_ b' = extended (op_def_ b) [c] ∧
        invoke c this σ =
          Some (if returns_by_value c
                then (<[this := b']> σ ++ [b'], length σ)
                else (<[this := b']> σ, this)).
Proof.
  intros Hb.
  destruct (invoke_extended c this σ b Hb) as (σ' & l & b1 & b2 & Hinv & _ & Hd1 & _ & Hd2).
  destruct c; simpl in *; unfold by_reference, returning_copy in *;
    rewrite Hb in *; simpl in *; injection Hinv as <- <-;
    eexists; (split; [|reflexivity]).
  all: destruct b as [d]; simpl; unfold extended; simpl;
    rewrite ?foldl_add_output_type, ?foldl_snoc, ?foldl_add_ints, ?foldl_add_floats;
    unfold add_input, add_output, add_output_shape, add_arg, output_types_of; simpl;
    by rewrite ?app_nil_r.
Qed.


Lemma Finalize_stores (b : OpDefBuilder) (dest : nat) (mem : Destinations) :
  Finalize b (Some dest) mem = Ok tt (<[dest := op_def_ b]> mem).
Proof. reflexivity. Qed.


(** A fluent chain leaves in the named builder only the calls up to the
    first method that returns by value: the later calls act on the copy. *)
Example chain_acts_on_the_copy :
  ∃ σ l b0 b,
    chain [CInput "a"; CAddIntArg "x" 1; CAddIntArg "y" 2; COutput "c"] 0%nat
          [OpDefBuilder_new "AddN" "n"] = Some (σ, l) ∧
    σ !! 0%nat = Some b0 ∧ arg_name <$> op_arg (op_def_ b0) = ["x"] ∧
    op_output (op_def_ b0) = [] ∧
    σ !! l = Some b ∧ arg_name <$> op_arg (op_def_ b) = ["x"; "y"] ∧
    op_output (op_def_ b) = ["c"].
Proof. do 4 eexists. repeat split; reflexivity. Qed.

(** C8. Finalize with a null destination fails the fatal check of the
    destination pointer and leaves every destination as it was; with a
    destination that is not null it does not abort. *)
Theorem Finalize_null_destination (b : OpDefBuilder) (mem : Destinations) :
  Finalize b None mem = Fatal "input should not be null." mem ∧
  final_state (Finalize b None mem) = mem ∧
  ∀ dest, is_fatal (Finalize b (Some dest) mem) = false.
Proof.
  split; [|split].
  - unfold Finalize, MACE_CHECK, mbind, M_bind. simpl. reflexivity.
  - reflexivity.
  - intros dest. by rewrite Finalize_stores.
Qed.

End BuilderFacts.

(* ===================================================================== *)
(** * Facts about the monad and about what calls keep                     *)
(* ===================================================================== *)

Section Stability.
Context (E : Collaborators).

Lemma bind_Ok {A B} (m : M State A) (f : A → M State B) (s s' : State) (a : A) :
  m s = Ok a s' → (m ≫= f) s = f a s'.
Proof. intros H. unfold mbind, M_bind. by rewrite H. Qed.

Lemma bind_Fatal {A B} (m : M State A) (f : A → M State B) (s s' : State) msg :
  m s = Fatal msg s' → (m ≫= f) s = Fatal msg s'.
Proof. intros H. unfold mbind, M_bind. by rewrite H. Qed.

Lemma stable_ret {A} (I : State → Prop) (a : A) : stable I (mret a : M State A).
Proof. intros s Hs. exact Hs. Qed.

Lemma stable_bind {A B} (I : State → Prop) (m : M State A) (f : A → M State B) :
  stable I m → (∀ a, stable I (f a)) → stable I (m ≫= f).
Proof.
  intros Hm Hf s Hs. specialize (Hm s Hs).
  unfold mbind, M_bind. destruct (m s) as [a s'|msg s']; simpl in *.
  - by apply Hf.
  - exact Hm.
Qed.

Lemma stable_get (I : State → Prop) : stable I (get : M State State).
Proof. intros s Hs. exact Hs. Qed.

Lemma stable_modify (I : State → Prop) (f : State → State) :
  about_registry I → (∀ s, instance (f s) = instance s) → stable I (modify f).
Proof. intros HI Hf s Hs. simpl. eapply HI; [apply Hf | exact Hs]. Qed.

Lemma stable_abort {A} (I : State → Prop) msg :
  stable I ((λ s, Fatal msg s) : M State A).
Proof. intros s Hs. exact Hs. Qed.

Lemma stable_MACE_CHECK (I : State → Prop) (c : bool) msg :
  stable I (MACE_CHECK c msg : M State unit).
Proof. intros s Hs. unfold MACE_CHECK. by destruct c. Qed.

Lemma stable_this_instance (I : State → Prop) : stable I this_instance.
Proof. intros s Hs. unfold this_instance. by destruct (instance s). Qed.

(** A predicate on the registry that [Get] and [GetDevice] keep is kept by
    every function of the harness: they reach the registry through these
    two only. *)
Section Harness.
Context (I : State → Prop).
Hypothesis I_registry : about_registry I.
Hypothesis I_Get : ∀ n p g, stable I (Get E n p g).
Hypothesis I_GetDevice : ∀ d, stable I (GetDevice d).

Ltac stable_step :=
  first
    [ apply stable_ret
    | apply stable_get
    | apply I_Get
    | apply I_GetDevice
    | apply stable_MACE_CHECK
    | apply stable_abort
    | apply stable_modify; [exact I_registry | intros ?; reflexivity]
    | apply stable_bind; [|intros ?] ].

Lemma stable_emit (e : Event) : stable I (emit e).
Proof. unfold emit. stable_step. Qed.

Lemma stable_PreallocateOutputTensor nd dev :
  stable I (PreallocateOutputTensor E nd dev).
Proof. unfold PreallocateOutputTensor. repeat stable_step. Qed.

Lemma stable_call_net what ev : stable I (call_net what ev).
Proof.
  unfold call_net. stable_step; [stable_step|].
  destruct (net_ a); repeat stable_step.
Qed.

Lemma stable_new_SerialNet nd dev : stable I (new_SerialNet nd dev).
Proof. unfold new_SerialNet. repeat stable_step. Qed.

Ltac stable_auto :=
  repeat first
    [ apply stable_this_instance
    | apply stable_new_SerialNet
    | apply stable_PreallocateOutputTensor
    | apply stable_call_net
    | stable_step
    | match goal with |- stable _ (if ?c then _ else _) => destruct c end ].

Lemma stable_Setup device : stable I (Setup E device).
Proof. unfold Setup, Get_default. stable_auto. Qed.

Lemma stable_Sync : stable I (Sync E).
Proof. unfold Sync, Get_default. stable_auto. Qed.

Lemma stable_MACE_RETURN_IF_ERROR stmt rest :
  stable I stmt → stable I rest → stable I (MACE_RETURN_IF_ERROR stmt rest).
Proof.
  intros H1 H2. unfold MACE_RETURN_IF_ERROR.
  apply stable_bind; [exact H1|]. intros status.
  destruct (decide _); [apply stable_ret | exact H2].
Qed.

Lemma stable_Run : stable I (Run E).
Proof.
  unfold Run. do 2 (apply stable_bind; [stable_auto|]; intros ?).
  apply stable_MACE_RETURN_IF_ERROR; [apply stable_call_net|].
  apply stable_bind; [apply stable_Sync | intros ?; apply stable_ret].
Qed.

Lemma stable_set_mem_type dev type : stable I (set_mem_type dev type).
Proof.
  unfold set_mem_type. destruct dev as [[id [| ? ? ?]]|]; stable_auto.
Qed.

Lemma stable_RunOp_loop device types : stable I (RunOp_loop E device types).
Proof.
  induction types as [|type rest IH]; simpl; [apply stable_ret|].
  unfold Get_default.
  apply stable_bind; [apply I_Get|]; intros ?.
  apply stable_bind; [apply I_GetDevice|]; intros dev.
  apply stable_bind; [apply stable_set_mem_type|]; intros ?.
  apply stable_bind; [apply stable_Setup|]; intros ?.
  apply stable_MACE_RETURN_IF_ERROR; [apply stable_Run | exact IH].
Qed.

Lemma stable_RunOp device : stable I (RunOp E device).
Proof.
  unfold RunOp, Get_default, opencl_mem_types. destruct (decide _).
  - apply stable_bind; [apply I_Get|]; intros ?.
    apply stable_bind; [stable_auto|]; intros types.
    apply stable_RunOp_loop.
  - apply stable_bind; [apply stable_Setup | intros ?; apply stable_Run].
Qed.

Lemma stable_RunNet nd device : stable I (RunNet E nd device).
Proof.
  unfold RunNet, Get_default.
  apply stable_bind; [stable_auto|]; intros ?.
  apply stable_bind; [apply I_Get|]; intros ?.
  apply stable_bind; [apply I_GetDevice|]; intros dev.
  apply stable_bind; [apply stable_new_SerialNet|]; intros ?.
  apply stable_bind; [apply I_Get|]; intros ?.
  apply stable_bind; [apply I_GetDevice|]; intros dev'.
  apply stable_MACE_RETURN_IF_ERROR; [apply stable_PreallocateOutputTensor|].
  apply stable_MACE_RETURN_IF_ERROR; apply stable_call_net.
Qed.

(** Every call a test can make keeps the predicate, as soon as the three
    setters of the memory types do, when one of them is the call. *)
Lemma stable_perform (c : ApiCall) :
  (is_layout_setter c = true → ∀ types, stable I (set_opencl_mem_types_ types)) →
  stable I (perform E c).
Proof.
  intros Hset. destruct c; simpl.
  - apply stable_bind; [apply I_Get | intros ?; apply stable_ret].
  - apply stable_bind; [apply I_GetDevice | intros ?; apply stable_ret].
  - unfold gpu_context. stable_auto.
  - unfold opencl_mem_types. stable_auto.
  - by apply Hset.
  - by apply Hset.
  - by apply Hset.
  - apply stable_bind; [apply stable_Setup | intros ?; apply stable_ret].
  - apply stable_bind; [apply stable_Run | intros ?; apply stable_ret].
  - apply stable_bind; [apply stable_RunOp | intros ?; apply stable_ret].
  - apply stable_bind; [apply stable_RunNet | intros ?; apply stable_ret].
  - apply stable_Sync.
Qed.

Lemma stable_perform_all (cs : list ApiCall) :
  (∀ c, c ∈ cs → is_layout_setter c = true →
        ∀ types, stable I (set_opencl_mem_types_ types)) →
  stable I (perform_all E cs).
Proof.
  induction cs as [|c cs IH]; intros Hset; simpl; [apply stable_ret|].
  apply stable_bind.
  - apply stable_perform. apply Hset. left.
  - intros _. apply IH. intros c' Hc'. apply Hset. by right.
Qed.

End Harness.
End Stability.

(* ===================================================================== *)
(** * Facts about OpTestContext                                           *)
(* ===================================================================== *)

Section RegistryFacts.
Context (E : Collaborators).

Lemma Get_existing n p g (s : State) (r : OpTestContext) :
  instance s = Some r → Get E n p g s = Ok (registry_id r) s.
Proof. intros H. unfold Get, get, mbind, M_bind. by rewrite H. Qed.

(** The first call constructs the instance from its own arguments. *)
Lemma Get_first n p g (s : State) :
  instance s = None →
  ∃ s', Get E n p g s = Ok (constructed s) s' ∧
        harness_of s' = harness_of s ∧
        instance s' =
          Some {| registry_id := constructed s;
                  gpu_context_ := {| gpu_context_id := S (constructed s);
                                     storage_path := GetStoragePathFromEnv E |};
                  opencl_mem_types_ := [GPU_IMAGE];
                  device_map_ :=
                    <[GPU := Some {| device_id := S (S (S (constructed s)));
                                     device_impl := GPUDevice (S (constructed s))
                                                      (S (constructed s)) PRIORITY_NORMAL |}]>
                      (<[CPU := Some {| device_id := S (S (constructed s));
                                        device_impl := CPUDevice n p g |}]> ∅) |}.
Proof.
  intros H. unfold Get, get, mbind, M_bind. rewrite H.
  unfold OpTestContext_new, get, mbind, M_bind. simpl.
  eexists. split; [reflexivity|]. split; reflexivity.
Qed.

Lemma Get_returns n p g (s : State) :
  ∃ id s', Get E n p g s = Ok id s' ∧ harness_of s' = harness_of s ∧
           is_Some (instance s') ∧
           permitted_mem_types s' = permitted_mem_types s.
Proof.
  destruct (instance s) as [r|] eqn:Hr.
  - exists (registry_id r), s. rewrite (Get_existing _ _ _ _ r Hr).
    rewrite Hr. eauto.
  - destruct (Get_first n p g s Hr) as (s' & HG & Hh & Hi).
    exists (constructed s), s'. rewrite HG, Hi. unfold permitted_mem_types.
    rewrite Hi, Hr. eauto.
Qed.

Lemma GetDevice_returns (device_type : DeviceType) (s : State) :
  is_Some (instance s) →
  ∃ s', GetDevice device_type s = Ok (device_of device_type s) s' ∧
        harness_of s' = harness_of s ∧ is_Some (instance s') ∧
        permitted_mem_types s' = permitted_mem_types s ∧
        ∀ d, device_of d s' = device_of d s.
Proof.
  intros [r Hr]. unfold GetDevice, this_instance, device_of, mbind, M_bind.
  rewrite Hr. destruct (device_map_ r !! device_type) as [p|] eqn:Hp.
  - exists s. simpl. rewrite Hr. eauto.
  - eexists. simpl. split; [reflexivity|]. simpl.
    split; [reflexivity|]. split; [eauto|]. split.
    + unfold permitted_mem_types. simpl. by rewrite Hr.
    + intros d. destruct (decide (device_type = d)) as [->|Hne].
      * by rewrite lookup_insert_eq, Hp.
      * by rewrite lookup_insert_ne.
Qed.

Lemma well_formed_about_registry : about_registry well_formed.
Proof. intros s s' H. unfold well_formed. by rewrite H. Qed.

Lemma well_formed_Get n p g : stable well_formed (Get E n p g).
Proof.
  intros s Hs. destruct (instance s) as [r|] eqn:Hr.
  - by rewrite (Get_existing _ _ _ _ r Hr).
  - destruct (Get_first n p g s Hr) as (s' & HG & _ & Hi). rewrite HG. simpl.
    unfold well_formed. rewrite Hi. do 5 eexists.
    simpl. split; [|split]; [reflexivity..].
Qed.

Lemma registry_ok_null_entry (r : OpTestContext) (d : DeviceType) :
  device_map_ r !! d = None → registry_ok r →
  registry_ok {| registry_id := registry_id r; gpu_context_ := gpu_context_ r;
                 opencl_mem_types_ := opencl_mem_types_ r;
                 device_map_ := <[d := None]> (device_map_ r) |}.
Proof.
  intros Hd (cpu & gpu & t & c & h & Hc & Hg & Hi).
  exists cpu, gpu, t, c, h. simpl.
  rewrite !lookup_insert_ne by congruence. auto.
Qed.

Lemma well_formed_GetDevice d : stable well_formed (GetDevice d).
Proof.
  intros s Hs. unfold GetDevice, this_instance, mbind, M_bind.
  unfold well_formed in Hs. destruct (instance s) as [r|] eqn:Hr; simpl.
  - destruct (device_map_ r !! d) as [p|] eqn:Hp; simpl.
    + unfold well_formed. by rewrite Hr.
    + unfold well_formed. simpl. by apply registry_ok_null_entry.
  - unfold well_formed. by rewrite Hr.
Qed.

Lemma well_formed_set_opencl_mem_types_ types :
  stable well_formed (set_opencl_mem_types_ types).
Proof.
  intros s Hs. unfold set_opencl_mem_types_, this_instance, mbind, M_bind.
  unfold well_formed in Hs. destruct (instance s) as [r|] eqn:Hr; simpl.
  - unfold well_formed. simpl. exact Hs.
  - unfold well_formed. by rewrite Hr.
Qed.

Lemma holds_devices_about_registry id cpu gpu :
  about_registry (holds_devices id cpu gpu).
Proof. intros s s' H. unfold holds_devices. by rewrite H. Qed.

Lemma holds_devices_Get id cpu gpu n p g :
  stable (holds_devices id cpu gpu) (Get E n p g).
Proof.
  intros s Hs. destruct Hs as (r & Hr & Hs).
  rewrite (Get_existing _ _ _ _ r Hr). simpl. exists r. auto.
Qed.

Lemma holds_devices_GetDevice id cpu gpu d :
  stable (holds_devices id cpu gpu) (GetDevice d).
Proof.
  intros s (r & Hr & Hid & Hc & Hg).
  unfold GetDevice, this_instance, mbind, M_bind. rewrite Hr.
  destruct (device_map_ r !! d) as [p|] eqn:Hp; simpl.
  - exists r. auto.
  - eexists. split; [reflexivity|]. simpl.
    rewrite !lookup_insert_ne by congruence. auto.
Qed.

Lemma holds_devices_set_opencl_mem_types_ id cpu gpu types :
  stable (holds_devices id cpu gpu) (set_opencl_mem_types_ types).
Proof.
  intros s (r & Hr & Hid & Hc & Hg).
  unfold set_opencl_mem_types_, this_instance, mbind, M_bind. rewrite Hr. simpl.
  eexists. split; [reflexivity|]. simpl. auto.
Qed.

(** Whatever a test calls, the registry keeps its identity and its two
    devices. *)
Lemma holds_devices_perform_all id cpu gpu (cs : list ApiCall) :
  stable (holds_devices id cpu gpu) (perform_all E cs).
Proof.
  apply stable_perform_all.
  - apply holds_devices_about_registry.
  - apply holds_devices_Get.
  - apply holds_devices_GetDevice.
  - intros c _ _ types. apply holds_devices_set_opencl_mem_types_.
Qed.

Lemma well_formed_perform_all (cs : list ApiCall) :
  stable well_formed (perform_all E cs).
Proof.
  apply stable_perform_all.
  - apply well_formed_about_registry.
  - apply well_formed_Get.
  - apply well_formed_GetDevice.
  - intros c _ _ types. apply well_formed_set_opencl_mem_types_.
Qed.

(** Every state a test reaches from the start of the process is well
    formed. *)
Lemma reachable_well_formed (cs : list ApiCall) (s0 : State) :
  instance s0 = None → well_formed (final_state (perform_all E cs s0)).
Proof.
  intros Hfresh. apply well_formed_perform_all. unfold well_formed. by rewrite Hfresh.
Qed.

Lemma image_only_about_registry : about_registry image_only.
Proof. intros s s' H. unfold image_only, permitted_mem_types. by rewrite H. Qed.

Lemma image_only_Get n p g : stable image_only (Get E n p g).
Proof.
  intros s Hs. destruct (Get_returns n p g s) as (id & s' & HG & _ & _ & Hp).
  rewrite HG. simpl. unfold image_only in *. congruence.
Qed.

Lemma image_only_GetDevice d : stable image_only (GetDevice d).
Proof.
  intros s Hs. destruct (instance s) as [r|] eqn:Hr.
  - destruct (GetDevice_returns d s) as (s' & HD & _ & _ & Hp & _); [by eauto|].
    rewrite HD. simpl. unfold image_only in *. congruence.
  - unfold GetDevice, this_instance, mbind, M_bind. by rewrite Hr.
Qed.

Lemma image_only_perform_all (cs : list ApiCall) :
  forallb (λ c, negb (is_layout_setter c)) cs = true →
  stable image_only (perform_all E cs).
Proof.
  intros Hcs. apply stable_perform_all.
  - apply image_only_about_registry.
  - apply image_only_Get.
  - apply image_only_GetDevice.
  - intros c Hc Hset. exfalso.
    rewrite forallb_forall in Hcs. apply list_elem_of_In in Hc.
    specialize (Hcs c Hc). rewrite Hset in Hcs. discriminate.
Qed.

End RegistryFacts.

(* ===================================================================== *)
(** * Facts about OpsTestNet                                              *)
(* ===================================================================== *)

Section HarnessFacts.
Context (E : Collaborators).

Lemma bind_get {B} (f : State → M State B) (s : State) : (get ≫= f) s = f s s.
Proof. reflexivity. Qed.

Lemma bind_modify {B} (g : State → State) (f : unit → M State B) (s : State) :
  (modify g ≫= f) s = f tt (g s).
Proof. reflexivity. Qed.

Lemma bind_emit {B} (e : Event) (f : unit → M State B) (s : State) :
  (emit e ≫= f) s = f tt (with_event e s).
Proof. reflexivity. Qed.

Lemma bind_ret {A B} (a : A) (f : A → M State B) (s : State) : (mret a ≫= f) s = f a s.
Proof. reflexivity. Qed.

Lemma bind_assoc {A B C} (m : M State A) (f : A → M State B) (g : B → M State C) s :
  ((m ≫= f) ≫= g) s = (m ≫= (λ a, f a ≫= g)) s.
Proof. unfold mbind, M_bind. by destruct (m s). Qed.

Lemma new_calls_app {A} (s s' : State) (r : Result State A) (evs : list Event) :
  final_state r = s' → trace s' = trace s ++ evs → new_calls s r = evs.
Proof. intros <- H. unfold new_calls. rewrite H. by rewrite drop_app_length. Qed.

(** [OpTestContext::Get()->GetDevice(device)], as Setup, RunNet and the loop
    of RunOp call it: it returns the device of the registry, leaves the
    harness alone and leaves a registry behind. *)
Lemma Get_GetDevice {B} (device : DeviceType) (f : option Device → M State B) (s : State) :
  ∃ s', (Get_default E ≫= λ _, GetDevice device ≫= f) s = f (device_of device s') s' ∧
        harness_of s' = harness_of s ∧ is_Some (instance s') ∧
        permitted_mem_types s' = permitted_mem_types s ∧
        (is_Some (instance s) → ∀ d, device_of d s' = device_of d s) ∧
        (well_formed s → well_formed s').
Proof.
  destruct (Get_returns E (default_num_threads E) (default_cpu_affinity_policy E)
              (default_use_gemmlowp E) s) as (id & s1 & HG & Hh1 & Hi1 & Hp1).
  destruct (GetDevice_returns device s1 Hi1) as (s2 & HD & Hh2 & Hi2 & Hp2 & Hd2).
  exists s2. unfold Get_default. rewrite (bind_Ok _ _ _ _ _ HG).
  rewrite (bind_Ok _ _ _ _ _ HD). rewrite Hd2.
  split; [reflexivity|]. split; [congruence|]. split; [assumption|].
  split; [congruence|]. split.
  - intros [r Hr] d. rewrite Hd2.
    rewrite (Get_existing E _ _ _ s r Hr) in HG. congruence.
  - intros Hwf.
    pose proof (well_formed_Get E (default_num_threads E)
                  (default_cpu_affinity_policy E) (default_use_gemmlowp E) s Hwf) as H1.
    rewrite HG in H1.
    pose proof (well_formed_GetDevice device s1 H1) as H2. by rewrite HD in H2.
Qed.

(** What [Setup] does, in full. [s0] is the state in which the preallocation
    is called: the workspace and the net definition are those built by the
    loop over the operators, the executor has just been constructed. *)
Lemma Setup_spec (device : DeviceType) (s : State) :
  ∃ s0 dev,
    let built := Setup_net_def (op_defs_ s) (ws_ s) in
    let net := {| serial_net_def := built.2; serial_net_device := dev |} in
    let p := ws_PreallocateOutputTensor E built.2 dev s0 in
    let s1 := with_event (EvPreallocate built.2 dev p.1) (with_ws p.2 s0) in
    let i := net_Init E net s1 in
    harness_of s0 = (built.1, op_defs_ s, Some net, device_type_ s, mem_type s,
                     trace s ++ [EvNewSerialNet built.2 dev]) ∧
    is_Some (instance s0) ∧
    permitted_mem_types s0 = permitted_mem_types s ∧
    Setup E device s =
      if decide (p.1 ≠ MACE_SUCCESS) then Ok false s1
      else Ok (bool_decide (i.1 = MACE_SUCCESS))
              (with_device_type device (with_event (EvInit i.1) (with_ws i.2 s1))).
Proof.
  unfold Setup. rewrite bind_get, bind_modify.
  set (built := Setup_net_def (op_defs_ s) (ws_ s)).
  destruct (Get_GetDevice device
              (λ dev, new_SerialNet built.2 dev ≫= λ _,
                 Get_default E ≫= λ _, GetDevice device ≫= λ dev,
                 PreallocateOutputTensor E built.2 dev ≫= λ status,
                 if decide (status ≠ MACE_SUCCESS) then mret false
                 else Init E ≫= λ status,
                      modify (with_device_type device) ≫= λ _,
                      mret (bool_decide (status = MACE_SUCCESS)))
              (with_ws built.1 s)) as (sa & Heq & Hha & Hia & Hpa & _ & _).
  rewrite Heq. clear Heq.
  set (dev := device_of device sa).
  unfold new_SerialNet. rewrite bind_assoc, bind_modify, bind_emit.
  set (net := {| serial_net_def := built.2; serial_net_device := dev |}).
  set (sb := with_event (EvNewSerialNet built.2 dev) (with_net (Some net) sa)).
  destruct (Get_GetDevice device
              (λ dev, PreallocateOutputTensor E built.2 dev ≫= λ status,
                 if decide (status ≠ MACE_SUCCESS) then mret false
                 else Init E ≫= λ status,
                      modify (with_device_type device) ≫= λ _,
                      mret (bool_decide (status = MACE_SUCCESS)))
              sb) as (s0 & Heq & Hh0 & Hi0 & Hp0 & Hd0 & _).
  rewrite Heq. clear Heq.
  rewrite (Hd0 Hia device). change (device_of device sb) with dev.
  exists s0, dev. cbv zeta. fold built. fold net.
  split; [|split; [assumption|split]].
  - rewrite Hh0. unfold sb, harness_of. simpl.
    unfold harness_of in Hha. simpl in Hha.
    injection Hha as -> -> _ -> -> ->. reflexivity.
  - rewrite Hp0. unfold sb, permitted_mem_types. simpl.
    unfold permitted_mem_types in Hpa. simpl in Hpa. exact Hpa.
  - unfold PreallocateOutputTensor.
    rewrite bind_assoc, bind_get. cbv zeta.
    rewrite bind_assoc, bind_modify, bind_assoc, bind_emit, bind_ret.
    destruct (decide _) as [Hf|Hok]; [reflexivity|].
    unfold Init, call_net. rewrite bind_assoc, bind_get.
    assert (Hnet : net_ s0 = Some net).
    { unfold harness_of in Hh0. unfold sb in Hh0. simpl in Hh0.
      by injection Hh0 as _ _ -> _ _ _. }
    simpl. rewrite Hnet. reflexivity.
Qed.


Lemma Sync_spec (s : State) :
  ∃ s', Sync E s = Ok tt s' ∧
        harness_of s' =
          (ws_ s, op_defs_ s, net_ s, device_type_ s, mem_type s,
           trace s ++ if waits_for_gpu E s then [EvFinish] else []).
Proof.
  unfold Sync, waits_for_gpu. destruct (MACE_ENABLE_OPENCL E); simpl.
  2: { exists s. by rewrite app_nil_r. }
  rewrite bind_get.
  destruct (bool_decide (net_ s ≠ None) && bool_decide (device_type_ s = GPU)).
  2: { exists s. by rewrite app_nil_r. }
  destruct (Get_GetDevice GPU (λ _, emit EvFinish) s) as (s1 & Heq & Hh & _).
  rewrite Heq. eexists. split; [reflexivity|].
  unfold harness_of in *. simpl. by injection Hh as -> -> -> -> -> ->.
Qed.

(** What [Run] does when there is an executor: its run is called; a failure
    is returned as it is, a success is followed by [Sync]. *)
Lemma Run_spec (s : State) (net : SerialNet) :
  net_ s = Some net →
  let r := net_Run E net s in
  let s1 := with_event (EvRun r.1) (with_ws r.2 s) in
  ∃ s', Run E s = Ok r.1 s' ∧
        harness_of s' =
          (r.2, op_defs_ s, net_ s, device_type_ s, mem_type s,
           trace s ++ EvRun r.1 ::
             if decide (r.1 ≠ MACE_SUCCESS) then []
             else if waits_for_gpu E s1 then [EvFinish] else []).
Proof.
  intros Hnet r s1. unfold Run. rewrite bind_get, Hnet.
  rewrite bool_decide_true by discriminate.
  unfold MACE_CHECK. unfold mbind at 1, M_bind at 1.
  unfold MACE_RETURN_IF_ERROR, net_run, call_net.
  rewrite bind_assoc, bind_get, Hnet. cbv zeta. fold r.
  rewrite bind_assoc, bind_modify, bind_assoc, bind_emit, bind_ret. fold s1.
  destruct (decide (r.1 ≠ MACE_SUCCESS)) as [Hf|Hok].
  - exists s1. split; [reflexivity|]. unfold harness_of, s1. simpl. by rewrite Hnet.
  - destruct (Sync_spec s1) as (s2 & HS & Hh).
    rewrite (bind_Ok _ _ _ _ _ HS). exists s2. split.
    + assert (Hr : r.1 = MACE_SUCCESS)
        by (destruct (decide (r.1 = MACE_SUCCESS)); [assumption | contradiction]).
      by rewrite Hr.
    + rewrite Hh. unfold s1. simpl. by rewrite Hnet, <- app_assoc.
Qed.

(** A successful [Run] on the GPU device kind, in a build with OpenCL, ends
    with the wait for the queue of the GPU. *)
Lemma Run_GPU_waits (s : State) (net : SerialNet) :
  net_ s = Some net → device_type_ s = GPU → MACE_ENABLE_OPENCL E = true →
  returned (Run E s) = Some MACE_SUCCESS →
  last (new_calls s (Run E s)) = Some EvFinish.
Proof.
  intros Hnet Hdev Hcl Hret.
  destruct (Run_spec s net Hnet) as (s' & HR & Hh). cbv zeta in *.
  rewrite HR in *. simpl in Hret. injection Hret as Hst.
  unfold harness_of in Hh. injection Hh as _ _ _ _ _ Htr.
  erewrite new_calls_app; [|reflexivity|simpl; exact Htr].
  rewrite Hst. rewrite decide_False by (intros H; by apply H).
  unfold waits_for_gpu. simpl. rewrite Hcl, Hnet, Hdev. reflexivity.
Qed.

Lemma Run_without_executor (s : State) :
  net_ s = None → Run E s = Fatal "net_ must not be null" s.
Proof. intros H. unfold Run. rewrite bind_get, H. reflexivity. Qed.

(** The calls of a pass of Setup, its result, and the executor it leaves. *)
Lemma Setup_calls (device : DeviceType) (s : State) :
  ∃ b s' evs,
    Setup E device s = Ok b s' ∧ trace s' = trace s ++ evs ∧ setup_calls evs ∧
    is_Some (net_ s') ∧ op_defs_ s' = op_defs_ s ∧
    (b = true ↔ ∃ nd dev, evs = [EvNewSerialNet nd dev;
                                 EvPreallocate nd dev MACE_SUCCESS;
                                 EvInit MACE_SUCCESS]).
Proof.
  destruct (Setup_spec device s) as (s0 & dev & Hh & _ & _ & HS).
  cbv zeta in *. rewrite HS. clear HS.
  unfold harness_of in Hh. injection Hh as Hws Hops Hnet Hdt Hmt Htr.
  set (nd := (Setup_net_def (op_defs_ s) (ws_ s)).2) in *.
  set (p := ws_PreallocateOutputTensor E nd dev s0).
  destruct (decide (p.1 ≠ MACE_SUCCESS)) as [Hf|Hok].
  - do 3 eexists. split; [reflexivity|]. simpl. rewrite Htr, <- app_assoc. simpl.
    split; [reflexivity|]. split; [by constructor|]. rewrite Hnet, Hops.
    split; [eauto|]. split; [reflexivity|]. split; [discriminate|].
    intros (? & ? & ?). discriminate.
  - assert (Hp : p.1 = MACE_SUCCESS)
      by (destruct (decide (p.1 = MACE_SUCCESS)); [assumption | contradiction]).
    do 3 eexists. split; [reflexivity|]. simpl. rewrite Htr, <- !app_assoc. simpl.
    split; [reflexivity|]. rewrite Hp. split; [constructor|]. rewrite Hnet, Hops.
    split; [eauto|]. split; [reflexivity|]. split.
    + intros Hb. apply bool_decide_eq_true in Hb. rewrite Hb. eauto.
    + intros (? & ? & Heq). injection Heq as _ _ _ _ Hi.
      apply bool_decide_eq_true. exact Hi.
Qed.


(** ** The loop of Setup over the operators *)

Lemma Setup_inputs_output_info (op_def : OperatorDef) (ws : Workspace) (nd : NetDef) :
  net_output_info (Setup_inputs op_def ws nd) = net_output_info nd.
Proof.
  unfold Setup_inputs. revert nd.
  induction (op_input op_def) as [|input inputs IH]; intros nd; simpl; [reflexivity|].
  rewrite IH. destruct (GetTensor input ws) as [t|]; [|reflexivity].
  by destruct (negb (is_weight t)).
Qed.

(** The index loop over the outputs, from any index on: names are removed
    from the workspace one by one and infos are appended one by one. *)
Lemma Setup_output_loop (op_def : OperatorDef) (k n : nat) (acc : Workspace * NetDef) :
  let info i :=
    {| output_info_name := output op_def i;
       output_info_data_type :=
         if decide (output_type_size op_def = output_size op_def)
         then output_type op_def i else DT_FLOAT |} in
  foldl (Setup_output op_def) acc (seq k n) =
  (foldl (λ ws name, RemoveTensor name ws) acc.1 (output op_def <$> seq k n),
   {| net_op := net_op acc.2; net_input_info := net_input_info acc.2;
      net_output_info := net_output_info acc.2 ++ (info <$> seq k n) |}).
Proof.
  intros info. revert k acc. induction n as [|n IH]; intros k acc; simpl.
  - rewrite app_nil_r. by destruct acc as [ws []].
  - rewrite IH. simpl. by rewrite <- app_assoc.
Qed.

Lemma outputs_by_index (op_def : OperatorDef) :
  output op_def <$> seq 0 (output_size op_def) = op_output op_def.
Proof.
  unfold output, output_size. apply list_eq. intros i.
  rewrite list_lookup_fmap.
  destruct (decide (i < length (op_output op_def))%nat) as [Hlt|Hge].
  - rewrite lookup_seq_lt by assumption. simpl.
    destruct (lookup_lt_is_Some_2 (op_output op_def) i Hlt) as [x Hx].
    by rewrite Hx.
  - rewrite lookup_seq_ge by lia. simpl. symmetry. apply lookup_ge_None. lia.
Qed.

Lemma output_infos_by_index (op_def : OperatorDef) :
  (λ i, {| output_info_name := output op_def i;
           output_info_data_type :=
             if decide (output_type_size op_def = output_size op_def)
             then output_type op_def i else DT_FLOAT |})
    <$> seq 0 (output_size op_def) = declared_output_infos op_def.
Proof.
  unfold declared_output_infos, output_type_size, output_size.
  destruct (decide _) as [Heq|Hne].
  - apply list_eq. intros i. rewrite list_lookup_fmap, lookup_zip_with.
    unfold output, output_type.
    destruct (decide (i < length (op_output op_def))%nat) as [Hlt|Hge].
    + rewrite lookup_seq_lt by assumption. simpl.
      destruct (lookup_lt_is_Some_2 (op_output op_def) i Hlt) as [x Hx].
      assert (Hlt' : (i < length (op_output_type op_def))%nat) by lia.
      destruct (lookup_lt_is_Some_2 (op_output_type op_def) i Hlt') as [t Ht].
      by rewrite Hx, Ht.
    + rewrite lookup_seq_ge by lia. simpl.
      rewrite (proj2 (lookup_ge_None (op_output op_def) i)) by lia. reflexivity.
  - rewrite <- (outputs_by_index op_def) at 2. rewrite <- list_fmap_compose.
    reflexivity.
Qed.

Lemma Setup_op_spec (acc : Workspace * NetDef) (op_def : OperatorDef) :
  (Setup_op acc op_def).1 = foldl (λ ws name, RemoveTensor name ws) acc.1 (op_output op_def) ∧
  net_output_info (Setup_op acc op_def).2 =
    net_output_info acc.2 ++ declared_output_infos op_def.
Proof.
  unfold Setup_op, Setup_outputs. rewrite Setup_output_loop. simpl.
  rewrite outputs_by_index, output_infos_by_index, Setup_inputs_output_info.
  split; reflexivity.
Qed.

Lemma Setup_net_def_from (op_defs : list OperatorDef) (acc : Workspace * NetDef) :
  (foldl Setup_op acc op_defs).1 =
    foldl (λ ws name, RemoveTensor name ws) acc.1 (declared_outputs op_defs) ∧
  net_output_info (foldl Setup_op acc op_defs).2 =
    net_output_info acc.2 ++ (op_defs ≫= declared_output_infos).
Proof.
  revert acc. induction op_defs as [|op_def op_defs IH]; intros acc; simpl.
  - by rewrite app_nil_r.
  - destruct (IH (Setup_op acc op_def)) as [IH1 IH2].
    destruct (Setup_op_spec acc op_def) as [H1 H2].
    rewrite IH1, IH2, H1, H2. unfold declared_outputs. simpl.
    rewrite foldl_app, <- app_assoc. split; reflexivity.
Qed.

Lemma removed_names (names : list string) (ws : Workspace) (name : string) :
  foldl (λ ws name, RemoveTensor name ws) ws names !! name =
  if decide (name ∈ names) then None else ws !! name.
Proof.
  revert ws. induction names as [|n names IH]; intros ws.
  - cbn [foldl]. destruct (decide (name ∈ [])) as [Hin|_]; [|reflexivity].
    by apply not_elem_of_nil in Hin.
  - cbn [foldl]. rewrite IH. unfold RemoveTensor.
    destruct (decide (name ∈ names)) as [Hin|Hnot];
      destruct (decide (name ∈ n :: names)) as [Hin'|Hnot']; try reflexivity.
    + exfalso. apply Hnot'. by right.
    + apply elem_of_cons in Hin' as [->|Hin']; [|contradiction].
      apply lookup_delete_eq.
    + apply lookup_delete_ne. intros ->. apply Hnot'. left.
Qed.


(** ** RunNet *)

Lemma RunNet_spec (nd : NetDef) (device : DeviceType) (s : State) :
  ∃ s0 dev,
    let net := {| serial_net_def := nd; serial_net_device := dev |} in
    let p := ws_PreallocateOutputTensor E nd dev s0 in
    let s1 := with_event (EvPreallocate nd dev p.1) (with_ws p.2 s0) in
    let i := net_Init E net s1 in
    let s2 := with_event (EvInit i.1) (with_ws i.2 s1) in
    let r := net_Run E net s2 in
    let s3 := with_event (EvRun r.1) (with_ws r.2 s2) in
    harness_of s0 = (ws_ s, op_defs_ s, Some net, device, mem_type s,
                     trace s ++ [EvNewSerialNet nd dev]) ∧
    RunNet E nd device s =
      if decide (p.1 ≠ MACE_SUCCESS) then Ok p.1 s1
      else if decide (i.1 ≠ MACE_SUCCESS) then Ok i.1 s2
      else Ok r.1 s3.
Proof.
  unfold RunNet. rewrite bind_modify.
  destruct (Get_GetDevice device
              (λ dev, new_SerialNet nd dev ≫= λ _,
                 Get_default E ≫= λ _, GetDevice device ≫= λ dev,
                 MACE_RETURN_IF_ERROR (PreallocateOutputTensor E nd dev)
                   (MACE_RETURN_IF_ERROR (Init E) (net_run E)))
              (with_device_type device s)) as (sa & Heq & Hha & Hia & _).
  rewrite Heq. clear Heq.
  set (dev := device_of device sa).
  unfold new_SerialNet. rewrite bind_assoc, bind_modify, bind_emit.
  set (net := {| serial_net_def := nd; serial_net_device := dev |}).
  set (sb := with_event (EvNewSerialNet nd dev) (with_net (Some net) sa)).
  destruct (Get_GetDevice device
              (λ dev, MACE_RETURN_IF_ERROR (PreallocateOutputTensor E nd dev)
                        (MACE_RETURN_IF_ERROR (Init E) (net_run E)))
              sb) as (s0 & Heq & Hh0 & Hi0 & _ & Hd0 & _).
  rewrite Heq. clear Heq.
  rewrite (Hd0 Hia device). change (device_of device sb) with dev.
  exists s0, dev. cbv zeta. fold net.
  assert (Hnet : net_ s0 = Some net).
  { unfold harness_of in Hh0. unfold sb in Hh0. simpl in Hh0.
    by injection Hh0 as _ _ -> _ _ _. }
  split.
  - rewrite Hh0. unfold sb, harness_of. simpl.
    unfold harness_of in Hha. simpl in Hha.
    injection Hha as -> -> _ -> -> ->. reflexivity.
  - unfold MACE_RETURN_IF_ERROR at 1. unfold PreallocateOutputTensor.
    rewrite !bind_assoc, bind_get. cbv zeta.
    rewrite bind_assoc, bind_modify, bind_assoc, bind_emit, bind_ret.
    destruct (decide _) as [Hf|Hok]; [reflexivity|].
    unfold MACE_RETURN_IF_ERROR, Init, call_net.
    rewrite !bind_assoc, bind_get. cbn [net_ with_event with_ws]. rewrite Hnet.
    cbv zeta. rewrite !bind_assoc, bind_modify, !bind_assoc, bind_emit, bind_ret.
    destruct (decide _) as [Hf'|Hok']; [reflexivity|].
    unfold net_run, call_net. rewrite bind_get.
    cbn [net_ with_event with_ws]. rewrite Hnet. reflexivity.
Qed.

(** RunNet returns what the executor's run returned: no call to [Sync], and
    no wait for the queue of the GPU, is among its calls. *)
Lemma RunNet_never_waits (nd : NetDef) (device : DeviceType) (s : State) :
  EvFinish ∉ new_calls s (RunNet E nd device s).
Proof.
  destruct (RunNet_spec nd device s) as (s0 & dev & Hh & HR). cbv zeta in *.
  unfold harness_of in Hh. injection Hh as _ _ _ _ _ Htr.
  rewrite HR. clear HR.
  repeat destruct (decide _).
  all: erewrite new_calls_app;
    [|reflexivity|simpl; rewrite Htr, <- ?app_assoc; simpl; reflexivity].
  all: rewrite ?elem_of_cons, elem_of_nil; intros H;
    repeat destruct H as [H|H]; try discriminate; exact H.
Qed.


(** ** RunOp *)

Lemma gpu_device_of (s : State) :
  well_formed s → is_Some (instance s) →
  ∃ id t c h, device_of GPU s =
              Some {| device_id := id; device_impl := GPUDevice t c h |}.
Proof.
  unfold well_formed, device_of. intros Hwf [r Hr]. rewrite Hr in *.
  destruct Hwf as (cpu & [id impl] & t & c & h & _ & Hg & Hi).
  simpl in Hi. subst impl. rewrite Hg. simpl. eauto.
Qed.

Lemma well_formed_Setup (device : DeviceType) (s : State) :
  well_formed s → well_formed (final_state (Setup E device s)).
Proof.
  apply stable_Setup.
  - apply well_formed_about_registry.
  - apply well_formed_Get.
  - apply well_formed_GetDevice.
Qed.

Lemma well_formed_Run (s : State) :
  well_formed s → well_formed (final_state (Run E s)).
Proof.
  apply stable_Run.
  - apply well_formed_about_registry.
  - apply well_formed_Get.
  - apply well_formed_GetDevice.
Qed.

(** One pass of the body of the loop: the memory type is set, Setup is
    called and its result dropped, Run is called; [k] is what the loop does
    with the status of Run. *)
Lemma RunOp_cycle {B} (type : MemoryType) (k : MaceStatus → M State B) (s : State) :
  well_formed s →
  ∃ s' status evs,
    (Get_default E ≫= λ _, GetDevice GPU ≫= λ dev, set_mem_type dev type ≫= λ _,
       Setup E GPU ≫= λ _, Run E ≫= k) s = k status s' ∧
    trace s' = trace s ++ evs ∧ full_cycle type status evs ∧ well_formed s'.
Proof.
  intros Hwf.
  destruct (Get_GetDevice GPU
              (λ dev, set_mem_type dev type ≫= λ _, Setup E GPU ≫= λ _, Run E ≫= k) s)
    as (s1 & Heq & Hh1 & Hi1 & _ & _ & Hwf1).
  rewrite Heq. clear Heq. specialize (Hwf1 Hwf).
  destruct (gpu_device_of s1 Hwf1 Hi1) as (id & t & c & h & Hdev). rewrite Hdev.
  cbn [set_mem_type]. rewrite bind_assoc, bind_modify, bind_emit.
  set (s2 := with_event (EvSetMemType type) (with_mem_type type s1)).
  assert (Hwf2 : well_formed s2) by exact Hwf1.
  destruct (Setup_calls GPU s2) as (b & s3 & setup & HS & Htr3 & Hsetup & [net Hnet] & _).
  pose proof (well_formed_Setup GPU s2 Hwf2) as Hwf3. rewrite HS in Hwf3. simpl in Hwf3.
  rewrite (bind_Ok _ _ _ _ _ HS).
  destruct (Run_spec s3 net Hnet) as (s4 & HR & Hh4). cbv zeta in *.
  pose proof (well_formed_Run s3 Hwf3) as Hwf4. rewrite HR in Hwf4. simpl in Hwf4.
  rewrite (bind_Ok _ _ _ _ _ HR).
  set (r := net_Run E net s3) in *.
  exists s4, r.1.
  exists (EvSetMemType type :: setup ++
            EvRun r.1 :: if decide (r.1 ≠ MACE_SUCCESS) then []
                         else if waits_for_gpu E (with_event (EvRun r.1) (with_ws r.2 s3))
                              then [EvFinish] else []).
  split; [reflexivity|]. split; [|split; [|exact Hwf4]].
  - unfold harness_of in Hh4. injection Hh4 as _ _ _ _ _ Htr4.
    rewrite Htr4, Htr3. unfold s2. simpl.
    unfold harness_of in Hh1. injection Hh1 as _ _ _ _ _ Htr1. rewrite Htr1.
    rewrite <- !app_assoc. reflexivity.
  - constructor; [exact Hsetup|].
    destruct (decide (r.1 ≠ MACE_SUCCESS)) as [Hf|Hok]; [constructor|].
    destruct (waits_for_gpu E _); [|constructor].
    apply run_calls_finish.
    destruct (decide (r.1 = MACE_SUCCESS)); [assumption | contradiction].
Qed.

(** The loop of RunOp(GPU) over a list of memory types: one full cycle per
    type, in order, up to and including the first whose Run fails; the
    status of that Run is returned; MACE_SUCCESS when no Run fails. *)
Lemma RunOp_loop_cycles (types : list MemoryType) (s : State) :
  well_formed s →
  ∃ (cycles : list Cycle) (s' : State) (status : MaceStatus),
    RunOp_loop E GPU types s = Ok status s' ∧
    trace s' = trace s ++ concat (cycle_calls <$> cycles) ∧
    Forall is_full_cycle cycles ∧
    ((status = MACE_SUCCESS ∧ cycle_type <$> cycles = types ∧
      Forall (λ c, cycle_status c = MACE_SUCCESS) cycles) ∨
     (status ≠ MACE_SUCCESS ∧
      ∃ before failing not_attempted,
        cycles = before ++ [failing] ∧ cycle_status failing = status ∧
        Forall (λ c, cycle_status c = MACE_SUCCESS) before ∧
        types = (cycle_type <$> cycles) ++ not_attempted)).
Proof.
  revert s. induction types as [|type rest IH]; intros s Hwf.
  - exists [], s, MACE_SUCCESS. simpl. rewrite app_nil_r.
    split; [reflexivity|]. split; [reflexivity|]. split; [constructor|].
    left. split; [reflexivity|]. split; [reflexivity|constructor].
  - cbn [RunOp_loop]. unfold MACE_RETURN_IF_ERROR.
    destruct (RunOp_cycle type
                (λ status, if decide (status ≠ MACE_SUCCESS) then mret status
                           else RunOp_loop E GPU rest) s Hwf)
      as (s1 & status & evs & Heq & Htr & Hcy & Hwf1).
    rewrite Heq. clear Heq.
    set (this := {| cycle_type := type; cycle_status := status; cycle_calls := evs |}).
    destruct (decide (status ≠ MACE_SUCCESS)) as [Hf|Hok].
    + exists [this], s1, status. simpl. rewrite app_nil_r.
      split; [reflexivity|]. split; [exact Htr|].
      split; [by repeat constructor|]. right. split; [exact Hf|].
      exists [], this, rest. split; [reflexivity|]. split; [reflexivity|].
      split; [constructor|reflexivity].
    + assert (Hs : status = MACE_SUCCESS)
        by (destruct (decide (status = MACE_SUCCESS)); [assumption | contradiction]).
      destruct (IH s1 Hwf1) as (cycles & s2 & status2 & HL & Htr2 & Hall & Hres).
      exists (this :: cycles), s2, status2. rewrite HL.
      split; [reflexivity|]. split.
      { rewrite Htr2, Htr. simpl. by rewrite <- app_assoc. }
      split; [by constructor|].
      destruct Hres as [(-> & Hty & Hok2)|(Hf2 & before & failing & later & -> & Hst & Hb & Hty)].
      * left. split; [reflexivity|]. rewrite fmap_cons, Hty.
        split; [reflexivity|]. by constructor.
      * right. split; [exact Hf2|].
        exists (this :: before), failing, later.
        split; [reflexivity|]. split; [exact Hst|]. split; [by constructor|].
        rewrite fmap_cons, <- app_comm_cons. f_equal. exact Hty.
Qed.


(** On the CPU path the executor's run is called after Setup whatever Setup
    returned. *)
Lemma RunOp_CPU_calls (device : DeviceType) (s : State) :
  device ≠ GPU →
  ∃ b s1 setup st sync,
    Setup E device s = Ok b s1 ∧ setup_calls setup ∧ run_calls st (EvRun st :: sync) ∧
    returned (RunOp E device s) = Some st ∧
    new_calls s (RunOp E device s) = setup ++ EvRun st :: sync.
Proof.
  intros Hd. unfold RunOp. rewrite decide_False by exact Hd.
  destruct (Setup_calls device s) as (b & s1 & setup & HS & Htr & Hsetup & [net Hnet] & _).
  rewrite (bind_Ok _ _ _ _ _ HS).
  destruct (Run_spec s1 net Hnet) as (s2 & HR & Hh). cbv zeta in *.
  set (r := net_Run E net s1) in *.
  unfold harness_of in Hh. injection Hh as _ _ _ _ _ Htr2.
  exists b, s1, setup, r.1. eexists. split; [exact HS|]. split; [exact Hsetup|].
  rewrite HR. split; [|split; [reflexivity|]].
  2: { eapply new_calls_app; [reflexivity|]. simpl. rewrite Htr2, Htr.
       rewrite <- app_assoc. reflexivity. }
  destruct (decide (r.1 ≠ MACE_SUCCESS)) as [Hf|Hok]; [constructor|].
  destruct (waits_for_gpu E _); [|constructor].
  apply run_calls_finish.
  destruct (decide (r.1 = MACE_SUCCESS)); [assumption | contradiction].
Qed.

(** C3. Setup returns and does not abort. When the preallocation of the
    output tensors does not succeed, Setup returns false and Init is not
    called; when Init is called and does not succeed, Setup returns false. *)
Theorem Setup_reports_failure (device : DeviceType) (s : State) :
  is_fatal (Setup E device s) = false ∧
  setup_calls (new_calls s (Setup E device s)) ∧
  (∀ nd dev st,
      EvPreallocate nd dev st ∈ new_calls s (Setup E device s) → st ≠ MACE_SUCCESS →
      returned (Setup E device s) = Some false ∧
      inits_of (new_calls s (Setup E device s)) = []) ∧
  (∀ st,
      EvInit st ∈ new_calls s (Setup E device s) → st ≠ MACE_SUCCESS →
      returned (Setup E device s) = Some false).
Proof.
  destruct (Setup_calls device s) as (b & s' & evs & HS & Htr & Hcalls & _ & _ & Hb).
  rewrite HS. rewrite (new_calls_app s s' (Ok b s') evs eq_refl Htr).
  split; [reflexivity|]. split; [exact Hcalls|]. simpl.
  assert (Hfalse : b ≠ true → Some b = Some false).
  { intros ?. by destruct b. }
  destruct Hcalls as [nd dev pst Hpst | nd dev ist]; split.
  - intros nd' dev' st _ _. split; [|reflexivity].
    apply Hfalse. intros Ht. apply Hb in Ht as (? & ? & ?). congruence.
  - intros st Hin. rewrite !elem_of_cons, elem_of_nil in Hin.
    destruct Hin as [?|[?|[]]]; discriminate.
  - intros nd' dev' st Hin Hst. exfalso.
    rewrite !elem_of_cons, elem_of_nil in Hin.
    destruct Hin as [?|[Heq|[?|[]]]]; try discriminate. congruence.
  - intros st Hin Hst. rewrite !elem_of_cons, elem_of_nil in Hin.
    destruct Hin as [?|[?|[Heq|[]]]]; try discriminate.
    injection Heq as ->. apply Hfalse. intros Ht.
    apply Hb in Ht as (? & ? & ?). congruence.
Qed.

(** RunOp(GPU) reads the permitted memory types of the registry, which it
    constructs when there is none yet, and enters the loop with them. *)
Lemma RunOp_GPU_enters_loop (s : State) :
  well_formed s →
  ∃ s1, RunOp E GPU s = RunOp_loop E GPU (permitted_mem_types s) s1 ∧
        trace s1 = trace s ∧ well_formed s1.
Proof.
  intros Hwf. unfold RunOp. rewrite decide_True by reflexivity.
  destruct (Get_returns E (default_num_threads E) (default_cpu_affinity_policy E)
              (default_use_gemmlowp E) s) as (id & s1 & HG & Hh1 & [r Hr] & Hp1).
  pose proof (well_formed_Get E (default_num_threads E)
                (default_cpu_affinity_policy E) (default_use_gemmlowp E) s Hwf) as Hwf1.
  rewrite HG in Hwf1. simpl in Hwf1.
  unfold Get_default. rewrite (bind_Ok _ _ _ _ _ HG).
  assert (Hty : opencl_mem_types s1 = Ok (permitted_mem_types s) s1).
  { rewrite <- Hp1. unfold opencl_mem_types, this_instance, permitted_mem_types,
      mbind, M_bind. by rewrite Hr. }
  rewrite (bind_Ok _ _ _ _ _ Hty). exists s1.
  split; [reflexivity|]. split; [|exact Hwf1].
  unfold harness_of in Hh1. by injection Hh1 as _ _ _ _ _ ->.
Qed.

(** The loop of RunOp on the GPU device kind, by the status of Run alone:
    it goes through the permitted memory types in order; for each it makes
    the type the active one, calls Setup, then Run. It stops after the first
    cycle whose Run returned a status that is not MACE_SUCCESS and returns
    that status, the later types not being attempted; when no cycle's Run
    failed it has gone through every type and returns MACE_SUCCESS. What
    Setup returned in a cycle plays no part. *)
Theorem RunOp_GPU_cycles (s : State) :
  well_formed s →
  ∃ (cycles : list Cycle) (s' : State) (status : MaceStatus),
    RunOp E GPU s = Ok status s' ∧
    new_calls s (RunOp E GPU s) = concat (cycle_calls <$> cycles) ∧
    Forall is_full_cycle cycles ∧
    ((status = MACE_SUCCESS ∧ cycle_type <$> cycles = permitted_mem_types s ∧
      Forall (λ c, cycle_status c = MACE_SUCCESS) cycles) ∨
     (status ≠ MACE_SUCCESS ∧
      ∃ before failing not_attempted,
        cycles = before ++ [failing] ∧ cycle_status failing = status ∧
        Forall (λ c, cycle_status c = MACE_SUCCESS) before ∧
        permitted_mem_types s = (cycle_type <$> cycles) ++ not_attempted)).
Proof.
  intros Hwf.
  destruct (RunOp_GPU_enters_loop s Hwf) as (s1 & HR & Htr1 & Hwf1). rewrite HR.
  destruct (RunOp_loop_cycles (permitted_mem_types s) s1 Hwf1)
    as (cycles & s' & status & HL & Htr & Hall & Hres).
  exists cycles, s', status. rewrite HL.
  split; [reflexivity|]. split; [|split; assumption].
  eapply new_calls_app; [reflexivity|]. simpl. by rewrite Htr, Htr1.
Qed.


(** How a pass of Setup begins: the executor is constructed from the net
    definition built by the loop, then the preallocation is called, in a
    state [s0] whose workspace is the one the loop left. *)
Lemma Setup_begins (device : DeviceType) (s : State) :
  ∃ s0 dev later,
    ws_ s0 = (Setup_net_def (op_defs_ s) (ws_ s)).1 ∧
    trace s0 = trace s ++ [EvNewSerialNet (Setup_net_def (op_defs_ s) (ws_ s)).2 dev] ∧
    new_calls s (Setup E device s) =
      EvNewSerialNet (Setup_net_def (op_defs_ s) (ws_ s)).2 dev ::
      EvPreallocate (Setup_net_def (op_defs_ s) (ws_ s)).2 dev
        (ws_PreallocateOutputTensor E (Setup_net_def (op_defs_ s) (ws_ s)).2 dev s0).1 ::
      later.
Proof.
  destruct (Setup_spec device s) as (s0 & dev & Hh & _ & _ & HS). cbv zeta in *.
  unfold harness_of in Hh. injection Hh as Hws _ _ _ _ Htr.
  rewrite HS. clear HS. exists s0, dev.
  destruct (decide _); eexists; (split; [exact Hws|]); (split; [exact Htr|]).
  all: eapply new_calls_app;
    [reflexivity | simpl; rewrite Htr, <- ?app_assoc; simpl; reflexivity].
Qed.

(** C6. The net definition Setup hands to the executor records, for every
    operator in turn and for each of its outputs in turn, an OutputInfo with
    the declared output type at the same position when the operator has as
    many declared types as outputs, and with DT_FLOAT otherwise. *)
Theorem Setup_output_info_types (device : DeviceType) (s : State) :
  ∃ nd dev later,
    new_calls s (Setup E device s) = EvNewSerialNet nd dev :: later ∧
    nd = (Setup_net_def (op_defs_ s) (ws_ s)).2 ∧
    net_output_info nd = op_defs_ s ≫= declared_output_infos.
Proof.
  destruct (Setup_begins device s) as (s0 & dev & later & _ & _ & Hcalls).
  exists (Setup_net_def (op_defs_ s) (ws_ s)).2, dev. eexists.
  split; [exact Hcalls|]. split; [reflexivity|].
  unfold Setup_net_def.
  destruct (Setup_net_def_from (op_defs_ s) (ws_ s, new_NetDef)) as [_ H].
  rewrite H. reflexivity.
Qed.

(** C7. For every name that is an output of one of the accumulated operator
    definitions, the workspace holds no tensor under that name when Setup
    calls the preallocation, the first call that can put tensors there: a
    tensor of that name from an earlier pass has been removed. The tensors
    under other names are kept. *)
Theorem Setup_removes_declared_outputs (device : DeviceType) (s : State) (name : string) :
  name ∈ declared_outputs (op_defs_ s) →
  ∃ s0 nd dev later,
    ws_ s0 !! name = None ∧
    (∀ other, other ∉ declared_outputs (op_defs_ s) → ws_ s0 !! other = ws_ s !! other) ∧
    trace s0 = trace s ++ [EvNewSerialNet nd dev] ∧
    new_calls s (Setup E device s) =
      EvNewSerialNet nd dev ::
      EvPreallocate nd dev (ws_PreallocateOutputTensor E nd dev s0).1 :: later.
Proof.
  intros Hname.
  destruct (Setup_begins device s) as (s0 & dev & later & Hws & Htr & Hcalls).
  exists s0, (Setup_net_def (op_defs_ s) (ws_ s)).2, dev, later.
  destruct (Setup_net_def_from (op_defs_ s) (ws_ s, new_NetDef)) as [Hrem _].
  unfold Setup_net_def in Hws. rewrite Hrem in Hws. simpl in Hws.
  split; [|split; [|split; assumption]].
  - rewrite Hws, removed_names. by rewrite decide_True.
  - intros other Hother. rewrite Hws, removed_names. by rewrite decide_False.
Qed.

(** C10. As long as none of the three setters of the memory types has been
    called in the process, the registry's list of permitted memory types is
    the image-only list, and RunOp on the GPU device kind executes one cycle
    and no more, with the image layout. *)
Theorem RunOp_GPU_default_is_image (calls : list ApiCall) (s0 : State) :
  instance s0 = None →
  forallb (λ c, negb (is_layout_setter c)) calls = true →
  let s := final_state (perform_all E calls s0) in
  (∀ n p g, returned ((Get E n p g ≫= λ _, opencl_mem_types) s) = Some [GPU_IMAGE]) ∧
  ∃ status s' evs,
    RunOp E GPU s = Ok status s' ∧ new_calls s (RunOp E GPU s) = evs ∧
    full_cycle GPU_IMAGE status evs ∧ mem_types_of evs = [GPU_IMAGE].
Proof.
  intros Hfresh Hcalls s.
  assert (Himg : image_only s).
  { apply image_only_perform_all; [exact Hcalls|].
    unfold image_only, permitted_mem_types. by rewrite Hfresh. }
  assert (Hwf : well_formed s).
  { apply well_formed_perform_all. unfold well_formed. by rewrite Hfresh. }
  split.
  - intros n p g.
    destruct (Get_returns E n p g s) as (id & s1 & HG & _ & [r Hr] & Hp).
    rewrite (bind_Ok _ _ _ _ _ HG).
    unfold opencl_mem_types, this_instance, mbind, M_bind. rewrite Hr. simpl.
    unfold image_only in Himg. rewrite <- Himg, <- Hp.
    unfold permitted_mem_types. by rewrite Hr.
  - destruct (RunOp_GPU_enters_loop s Hwf) as (s1 & HR & Htr1 & Hwf1).
    rewrite HR, Himg. cbn [RunOp_loop]. unfold MACE_RETURN_IF_ERROR.
    destruct (RunOp_cycle GPU_IMAGE
                (λ status, if decide (status ≠ MACE_SUCCESS) then mret status
                           else mret MACE_SUCCESS) s1 Hwf1)
      as (s' & status & evs & Heq & Htr & Hcy & _).
    rewrite Heq. clear Heq. exists status, s', evs.
    assert (Hres : (if decide (status ≠ MACE_SUCCESS)
                    then (mret status : M State MaceStatus)
                    else mret MACE_SUCCESS) s' = Ok status s').
    { destruct (decide (status ≠ MACE_SUCCESS)) as [|Hok]; [reflexivity|].
      destruct (decide (status = MACE_SUCCESS)) as [->|]; [reflexivity|contradiction]. }
    rewrite Hres. split; [reflexivity|]. split.
    + eapply new_calls_app; [reflexivity|]. simpl. by rewrite Htr, Htr1.
    + split; [exact Hcy|].
      destruct Hcy as [setup run Hsetup Hrun].
      destruct Hsetup; destruct Hrun; reflexivity.
Qed.

End HarnessFacts.

(* ===================================================================== *)
(** * The registry is one object                                          *)
(* ===================================================================== *)

Section Singleton.
Context (E : Collaborators).

Lemma held_devices_are_returned id cpu gpu (s : State) :
  holds_devices id cpu gpu s →
  GetDevice CPU s = Ok (Some cpu) s ∧ GetDevice GPU s = Ok (Some gpu) s ∧
  ∀ n p g, Get E n p g s = Ok id s.
Proof.
  intros (r & Hr & Hid & Hc & Hg).
  unfold GetDevice, this_instance, mbind, M_bind. rewrite Hr, Hc, Hg.
  split; [reflexivity|]. split; [reflexivity|].
  intros n p g. rewrite (Get_existing E n p g s r Hr). by rewrite Hid.
Qed.

(** C9. In a process where the registry has not been obtained yet, a first
    call to Get and any later call to Get, whatever their arguments and
    whatever the test calls in between, return the same instance, and
    GetDevice gives the same CPU device and the same GPU device after both:
    those constructed by the first call, the CPU device from its
    arguments. The later call constructs nothing. *)
Theorem Get_returns_one_instance
    (n1 : Z) (p1 : CPUAffinityPolicy) (g1 : bool)
    (n2 : Z) (p2 : CPUAffinityPolicy) (g2 : bool)
    (between : list ApiCall) (s : State) :
  instance s = None →
  let s1 := final_state (Get E n1 p1 g1 s) in
  let s2 := final_state (perform_all E between s1) in
  let cpu := {| device_id := S (S (constructed s));
                device_impl := CPUDevice n1 p1 g1 |} in
  let gpu := {| device_id := S (S (S (constructed s)));
                device_impl := GPUDevice (S (constructed s)) (S (constructed s))
                                 PRIORITY_NORMAL |} in
  returned (Get E n1 p1 g1 s) = Some (constructed s) ∧
  Get E n2 p2 g2 s2 = Ok (constructed s) s2 ∧
  GetDevice CPU s1 = Ok (Some cpu) s1 ∧ GetDevice CPU s2 = Ok (Some cpu) s2 ∧
  GetDevice GPU s1 = Ok (Some gpu) s1 ∧ GetDevice GPU s2 = Ok (Some gpu) s2.
Proof.
  intros Hfresh s1 s2 cpu gpu.
  destruct (Get_first E n1 p1 g1 s Hfresh) as (s1' & HG & _ & Hi).
  assert (Hs1 : s1 = s1') by (unfold s1; by rewrite HG).
  assert (H1 : holds_devices (constructed s) cpu gpu s1).
  { rewrite Hs1. eexists. split; [exact Hi|]. simpl. split; [reflexivity|].
    split; [|reflexivity]. rewrite lookup_insert_ne by discriminate.
    apply lookup_insert_eq. }
  assert (H2 : holds_devices (constructed s) cpu gpu s2).
  { by apply holds_devices_perform_all. }
  destruct (held_devices_are_returned _ _ _ _ H1) as (Hc1 & Hg1 & _).
  destruct (held_devices_are_returned _ _ _ _ H2) as (Hc2 & Hg2 & HG2).
  rewrite HG. simpl. repeat split; auto.
Qed.

End Singleton.

(* ===================================================================== *)
(** * The code at concrete inputs                                         *)
(* ===================================================================== *)

(** C1. Setup fails (the preallocation is out of resources) and RunOp goes
    on: on the CPU path, and in each pass of the loop on the GPU path, the
    executor's run is called all the same, Init not having been called, and
    RunOp returns what that run returned, here MACE_SUCCESS. *)
Theorem RunOp_runs_after_failed_Setup :
  let E := answering MACE_OUT_OF_RESOURCES MACE_SUCCESS MACE_SUCCESS true in
  let s := AddN_process in
  let both := AddN_process_both E in
  returned (Setup E CPU s) = Some false ∧
  returned (RunOp E CPU s) = Some MACE_SUCCESS ∧
  preallocations_of (new_calls s (RunOp E CPU s)) = [MACE_OUT_OF_RESOURCES] ∧
  inits_of (new_calls s (RunOp E CPU s)) = [] ∧
  runs_of (new_calls s (RunOp E CPU s)) = [MACE_SUCCESS] ∧
  returned (Setup E GPU both) = Some false ∧
  returned (RunOp E GPU both) = Some MACE_SUCCESS ∧
  mem_types_of (new_calls both (RunOp E GPU both)) = [GPU_IMAGE; GPU_BUFFER] ∧
  preallocations_of (new_calls both (RunOp E GPU both)) =
    [MACE_OUT_OF_RESOURCES; MACE_OUT_OF_RESOURCES] ∧
  runs_of (new_calls both (RunOp E GPU both)) = [MACE_SUCCESS; MACE_SUCCESS].
Proof.
  cbv zeta. repeat split; vm_compute; reflexivity.
Qed.

(** C2. Both memory types permitted, and the Setup of every cycle fails:
    by a preallocation out of resources, or by an Init that rejects its
    arguments. RunOp on the GPU device kind does not stop at the first
    failing cycle: the executor's run is called in the image cycle, returns
    MACE_SUCCESS, and the loop goes on to the buffer cycle, whose Setup fails
    in the same way; RunOp returns MACE_SUCCESS. *)
Theorem RunOp_GPU_goes_on_after_failed_Setup :
  let E := answering MACE_OUT_OF_RESOURCES MACE_SUCCESS MACE_SUCCESS true in
  let E' := answering MACE_SUCCESS MACE_INVALID_ARGS MACE_SUCCESS true in
  let s := AddN_process_both E in
  let s' := AddN_process_both E' in
  permitted_mem_types s = [GPU_IMAGE; GPU_BUFFER] ∧
  (∀ s1, returned (Setup E GPU s1) = Some false) ∧
  returned (RunOp E GPU s) = Some MACE_SUCCESS ∧
  new_calls s (RunOp E GPU s) =
    [EvSetMemType GPU_IMAGE;
     EvNewSerialNet AddN_net_def (Some first_gpu);
     EvPreallocate AddN_net_def (Some first_gpu) MACE_OUT_OF_RESOURCES;
     EvRun MACE_SUCCESS;
     EvSetMemType GPU_BUFFER;
     EvNewSerialNet AddN_net_def (Some first_gpu);
     EvPreallocate AddN_net_def (Some first_gpu) MACE_OUT_OF_RESOURCES;
     EvRun MACE_SUCCESS] ∧
  permitted_mem_types s' = [GPU_IMAGE; GPU_BUFFER] ∧
  (∀ s1, returned (Setup E' GPU s1) = Some false) ∧
  returned (RunOp E' GPU s') = Some MACE_SUCCESS ∧
  new_calls s' (RunOp E' GPU s') =
    [EvSetMemType GPU_IMAGE;
     EvNewSerialNet AddN_net_def (Some first_gpu);
     EvPreallocate AddN_net_def (Some first_gpu) MACE_SUCCESS;
     EvInit MACE_INVALID_ARGS;
     EvRun MACE_SUCCESS; EvFinish;
     EvSetMemType GPU_BUFFER;
     EvNewSerialNet AddN_net_def (Some first_gpu);
     EvPreallocate AddN_net_def (Some first_gpu) MACE_SUCCESS;
     EvInit MACE_INVALID_ARGS;
     EvRun MACE_SUCCESS; EvFinish].
Proof.
  cbv zeta.
  assert (Hfails : ∀ E0 s1,
            (∀ nd dev s0, (ws_PreallocateOutputTensor E0 nd dev s0).1 ≠ MACE_SUCCESS) ∨
            (∀ net s0, (net_Init E0 net s0).1 ≠ MACE_SUCCESS) →
            returned (Setup E0 GPU s1) = Some false).
  { intros E0 s1 Hor.
    destruct (Setup_spec E0 GPU s1) as (s0 & dev & _ & _ & _ & HS).
    cbv zeta in HS. rewrite HS. destruct (decide _) as [|Hp]; [reflexivity|].
    destruct Hor as [Hpre|Hinit]; [by destruct (Hp (Hpre _ _ _))|].
    simpl. f_equal. apply bool_decide_eq_false. apply Hinit. }
  split; [vm_compute; reflexivity|].
  split; [intros s1; apply Hfails; left; intros; discriminate|].
  split; [vm_compute; reflexivity|].
  split; [vm_compute; reflexivity|].
  split; [vm_compute; reflexivity|].
  split; [intros s1; apply Hfails; right; intros; discriminate|].
  split; vm_compute; reflexivity.
Qed.

(** C4. RunNet on the GPU device kind, every stage succeeding: it returns
    MACE_SUCCESS after the executor's run and the wait for the queue of the
    GPU is not among its calls, although the device kind it recorded is GPU;
    RunOp, which goes through Run, ends with that wait. *)
Theorem RunNet_GPU_returns_without_waiting :
  let E := answering MACE_SUCCESS MACE_SUCCESS MACE_SUCCESS true in
  let s := AddN_process in
  returned (RunNet E AddN_net_def GPU s) = Some MACE_SUCCESS ∧
  new_calls s (RunNet E AddN_net_def GPU s) =
    [EvNewSerialNet AddN_net_def (Some first_gpu);
     EvPreallocate AddN_net_def (Some first_gpu) MACE_SUCCESS;
     EvInit MACE_SUCCESS; EvRun MACE_SUCCESS] ∧
  (EvFinish ∉ new_calls s (RunNet E AddN_net_def GPU s)) ∧
  device_type_ (final_state (RunNet E AddN_net_def GPU s)) = GPU ∧
  waits_for_gpu E (final_state (RunNet E AddN_net_def GPU s)) = true ∧
  returned (RunOp E GPU s) = Some MACE_SUCCESS ∧
  last (new_calls s (RunOp E GPU s)) = Some EvFinish.
Proof.
  cbv zeta. split; [vm_compute; reflexivity|]. split; [vm_compute; reflexivity|].
  split; [apply RunNet_never_waits|].
  repeat split; vm_compute; reflexivity.
Qed.

(** The run of the first cycle fails with both memory types permitted: the
    hypothesis of [RunOp_GPU_cycles] holds of that process. *)
Lemma RunOp_GPU_cycles_witness :
  let E := answering MACE_SUCCESS MACE_SUCCESS MACE_INVALID_ARGS true in
  let s := AddN_process_both E in
  well_formed s ∧
  ∃ (cycles : list Cycle) (s' : State) (status : MaceStatus),
    RunOp E GPU s = Ok status s' ∧
    new_calls s (RunOp E GPU s) = concat (cycle_calls <$> cycles) ∧
    Forall is_full_cycle cycles ∧
    ((status = MACE_SUCCESS ∧ cycle_type <$> cycles = permitted_mem_types s ∧
      Forall (λ c, cycle_status c = MACE_SUCCESS) cycles) ∨
     (status ≠ MACE_SUCCESS ∧
      ∃ before failing not_attempted,
        cycles = before ++ [failing] ∧ cycle_status failing = status ∧
        Forall (λ c, cycle_status c = MACE_SUCCESS) before ∧
        permitted_mem_types s = (cycle_type <$> cycles) ++ not_attempted)).
Proof.
  cbv zeta.
  assert (Hwf : well_formed
                  (AddN_process_both
                     (answering MACE_SUCCESS MACE_SUCCESS MACE_INVALID_ARGS true))).
  { vm_compute. exists first_cpu, first_gpu, 1%nat, 1%nat, PRIORITY_NORMAL.
    repeat split; reflexivity. }
  split; [exact Hwf|]. apply RunOp_GPU_cycles. exact Hwf.
Defined.

(** The two failures of [Setup_reports_failure] at the AddN test: a
    preallocation out of resources, and an Init that rejects its
    arguments. *)
Lemma Setup_reports_failure_witness :
  (returned (Setup (answering MACE_OUT_OF_RESOURCES MACE_SUCCESS MACE_SUCCESS true)
                   CPU AddN_process) = Some false ∧
   inits_of (new_calls AddN_process
               (Setup (answering MACE_OUT_OF_RESOURCES MACE_SUCCESS MACE_SUCCESS true)
                      CPU AddN_process)) = []) ∧
  returned (Setup (answering MACE_SUCCESS MACE_INVALID_ARGS MACE_SUCCESS true)
                  CPU AddN_process) = Some false.
Proof.
  split.
  - destruct (Setup_reports_failure
                (answering MACE_OUT_OF_RESOURCES MACE_SUCCESS MACE_SUCCESS true)
                CPU AddN_process) as (_ & _ & H & _).
    apply (H AddN_net_def (Some first_cpu) MACE_OUT_OF_RESOURCES).
    + vm_compute. apply list_elem_of_further, list_elem_of_here.
    + discriminate.
  - destruct (Setup_reports_failure
                (answering MACE_SUCCESS MACE_INVALID_ARGS MACE_SUCCESS true)
                CPU AddN_process) as (_ & _ & _ & H).
    apply (H MACE_INVALID_ARGS).
    + vm_compute. do 2 apply list_elem_of_further. apply list_elem_of_here.
    + discriminate.
Defined.

(** The tensor "c" left by an earlier pass of the AddN test is an output of
    the test's operator. *)
Lemma Setup_removes_declared_outputs_witness :
  let E := answering MACE_SUCCESS MACE_SUCCESS MACE_SUCCESS true in
  "c" ∈ declared_outputs (op_defs_ AddN_process) ∧
  is_Some (ws_ AddN_process !! "c") ∧
  ∃ s0 nd dev later,
    ws_ s0 !! "c" = None ∧
    (∀ other, other ∉ declared_outputs (op_defs_ AddN_process) →
              ws_ s0 !! other = ws_ AddN_process !! other) ∧
    trace s0 = trace AddN_process ++ [EvNewSerialNet nd dev] ∧
    new_calls AddN_process (Setup E CPU AddN_process) =
      EvNewSerialNet nd dev ::
      EvPreallocate nd dev (ws_PreallocateOutputTensor E nd dev s0).1 :: later.
Proof.
  cbv zeta.
  assert (Hc : "c" ∈ declared_outputs (op_defs_ AddN_process)).
  { vm_compute. apply list_elem_of_here. }
  split; [exact Hc|]. split; [vm_compute; eauto|].
  apply Setup_removes_declared_outputs. exact Hc.
Defined.

(** A first Get with four threads, a test that selects the buffer layout,
    runs on the GPU and asks for a device kind that was never constructed,
    then a Get with other arguments. *)
Lemma Get_returns_one_instance_witness :
  let E := answering MACE_SUCCESS MACE_SUCCESS MACE_SUCCESS true in
  let between := [CallSetOCLBufferTestFlag; CallRunOp GPU; CallGetDevice HEXAGON] in
  let s := AddN_process in
  let s1 := final_state (Get E 4 AFFINITY_NONE false s) in
  let s2 := final_state (perform_all E between s1) in
  let cpu := {| device_id := 2; device_impl := CPUDevice 4 AFFINITY_NONE false |} in
  instance s = None ∧
  returned (Get E 4 AFFINITY_NONE false s) = Some 0%nat ∧
  Get E 1 AFFINITY_LITTLE_ONLY true s2 = Ok 0%nat s2 ∧
  GetDevice CPU s1 = Ok (Some cpu) s1 ∧ GetDevice CPU s2 = Ok (Some cpu) s2 ∧
  GetDevice GPU s1 = Ok (Some first_gpu) s1 ∧ GetDevice GPU s2 = Ok (Some first_gpu) s2.
Proof.
  cbv zeta. split; [reflexivity|].
  exact (Get_returns_one_instance
           (answering MACE_SUCCESS MACE_SUCCESS MACE_SUCCESS true)
           4 AFFINITY_NONE false 1 AFFINITY_LITTLE_ONLY true
           [CallSetOCLBufferTestFlag; CallRunOp GPU; CallGetDevice HEXAGON]
           AddN_process eq_refl).
Defined.

(** A process that obtained the registry, ran the AddN test on the CPU and
    asked for the GPU device, without calling a setter. *)
Lemma RunOp_GPU_default_is_image_witness :
  let E := answering MACE_SUCCESS MACE_SUCCESS MACE_SUCCESS true in
  let calls := [CallGet 4 AFFINITY_NONE false; CallRunOp CPU; CallGetDevice GPU] in
  let s := final_state (perform_all E calls AddN_process) in
  instance AddN_process = None ∧
  forallb (λ c, negb (is_layout_setter c)) calls = true ∧
  (∀ n p g, returned ((Get E n p g ≫= λ _, opencl_mem_types) s) = Some [GPU_IMAGE]) ∧
  ∃ status s' evs,
    RunOp E GPU s = Ok status s' ∧ new_calls s (RunOp E GPU s) = evs ∧
    full_cycle GPU_IMAGE status evs ∧ mem_types_of evs = [GPU_IMAGE].
Proof.
  cbv zeta. split; [reflexivity|]. split; [reflexivity|].
  exact (RunOp_GPU_default_is_image
           (answering MACE_SUCCESS MACE_SUCCESS MACE_SUCCESS true)
           [CallGet 4 AFFINITY_NONE false; CallRunOp CPU; CallGetDevice GPU]
           AddN_process eq_refl eq_refl).
Defined.

(* ===================================================================== *)
(** * Further properties: the net definition Setup builds                 *)
(* ===================================================================== *)

Section NetDefinition.
Context (E : Collaborators).

Lemma static_cast_int_fits (d : Z) : fits_int d → static_cast_int d = d.
Proof.
  unfold fits_int, static_cast_int. intros Hd.
  rewrite Z.mod_small by lia. lia.
Qed.

Lemma foldl_cast_dims (dims : list Z) (acc : list Z) :
  foldl (λ dims d, dims ++ [static_cast_int d]) acc dims =
  acc ++ (static_cast_int <$> dims).
Proof.
  revert acc. induction dims as [|d dims IH]; intros acc; simpl.
  - by rewrite app_nil_r.
  - rewrite IH. by rewrite <- app_assoc.
Qed.

Lemma Setup_inputs_spec (op_def : OperatorDef) (ws : Workspace) (nd : NetDef) :
  Setup_inputs op_def ws nd =
  {| net_op := net_op nd;
     net_input_info := net_input_info nd ++ input_infos_of op_def ws;
     net_output_info := net_output_info nd |}.
Proof.
  unfold Setup_inputs, input_infos_of. revert nd.
  induction (op_input op_def) as [|input inputs IH]; intros nd.
  - simpl. rewrite app_nil_r. by destruct nd.
  - cbn [foldl]. rewrite IH. cbn [omap list_omap]. unfold GetTensor.
    destruct (ws !! input) as [t|]; simpl; [|reflexivity].
    destruct (is_weight t); simpl; [reflexivity|].
    rewrite foldl_cast_dims. simpl. by rewrite <- app_assoc.
Qed.

Lemma Setup_op_net_def (acc : Workspace * NetDef) (op_def : OperatorDef) :
  net_op (Setup_op acc op_def).2 = net_op acc.2 ++ [op_def] ∧
  net_input_info (Setup_op acc op_def).2 =
    net_input_info acc.2 ++ input_infos_of op_def acc.1.
Proof.
  unfold Setup_op, Setup_outputs. rewrite Setup_output_loop. simpl.
  rewrite Setup_inputs_spec. simpl. split; reflexivity.
Qed.

Lemma Setup_net_def_snoc (op_defs : list OperatorDef) (op_def : OperatorDef) (ws : Workspace) :
  Setup_net_def (op_defs ++ [op_def]) ws = Setup_op (Setup_net_def op_defs ws) op_def.
Proof. unfold Setup_net_def. by rewrite foldl_app. Qed.

Lemma Setup_net_def_workspace (op_defs : list OperatorDef) (ws : Workspace) (name : string) :
  (Setup_net_def op_defs ws).1 !! name =
  if decide (name ∈ declared_outputs op_defs) then None else ws !! name.
Proof.
  unfold Setup_net_def.
  destruct (Setup_net_def_from op_defs (ws, new_NetDef)) as [H _].
  rewrite H. apply removed_names.
Qed.

(** X1. The input infos an operator adds, after the operators before it:
    one for each of its inputs, in order, whose tensor was in the workspace
    before the pass, is not a weight, and is not an output of an earlier
    operator of the pass; the dims are the tensor's shape cast to int. *)
Theorem Setup_input_infos (op_defs : list OperatorDef) (op_def : OperatorDef) (ws : Workspace) :
  net_input_info (Setup_net_def (op_defs ++ [op_def]) ws).2 =
    net_input_info (Setup_net_def op_defs ws).2 ++
    input_infos_of op_def (Setup_net_def op_defs ws).1 ∧
  ∀ info, info ∈ input_infos_of op_def (Setup_net_def op_defs ws).1 ↔
    (input_info_name info ∈ op_input op_def ∧
     (input_info_name info ∉ declared_outputs op_defs) ∧
     ∃ t, ws !! input_info_name info = Some t ∧ is_weight t = false ∧
          input_info_dims info = static_cast_int <$> shape t).
Proof.
  split.
  - rewrite Setup_net_def_snoc. apply Setup_op_net_def.
  - intros info. unfold input_infos_of. rewrite list_elem_of_omap. split.
    + intros (input & Hin & Hinfo).
      rewrite Setup_net_def_workspace in Hinfo.
      destruct (decide (input ∈ declared_outputs op_defs)) as [|Hnot];
        [discriminate|].
      destruct (ws !! input) as [t|] eqn:Ht; [|discriminate]. simpl in Hinfo.
      destruct (is_weight t) eqn:Hw; [discriminate|].
      injection Hinfo as <-. simpl. eauto 10.
    + intros (Hin & Hnot & t & Ht & Hw & Hdims).
      exists (input_info_name info). split; [exact Hin|].
      rewrite Setup_net_def_workspace, decide_False by exact Hnot.
      rewrite Ht. simpl. rewrite Hw. destruct info as [n d]. simpl in *.
      by rewrite Hdims.
Qed.

Lemma cast_of_fitting_dims (dims : list Z) :
  Forall fits_int dims → static_cast_int <$> dims = dims.
Proof.
  induction 1 as [|d dims Hd _ IH]; [reflexivity|].
  rewrite fmap_cons, IH. f_equal. by apply static_cast_int_fits.
Qed.

(** The input infos of the net definition the loop of Setup builds: each
    names a tensor the workspace held before the pass, not a weight, and
    carries its shape cast to int. *)
Lemma Setup_net_def_input_infos (op_defs : list OperatorDef) (ws : Workspace) (info : InputInfo) :
  info ∈ net_input_info (Setup_net_def op_defs ws).2 →
  ∃ t, ws !! input_info_name info = Some t ∧ is_weight t = false ∧
       input_info_dims info = static_cast_int <$> shape t.
Proof.
  induction op_defs as [|op_def op_defs IH] using rev_ind.
  - intros Hin. by apply elem_of_nil in Hin.
  - rewrite Setup_net_def_snoc.
    destruct (Setup_op_net_def (Setup_net_def op_defs ws) op_def) as [_ ->].
    rewrite elem_of_app. intros [Hin|Hin]; [by apply IH|].
    unfold input_infos_of in Hin. apply list_elem_of_omap in Hin as (input & _ & Hinfo).
    rewrite Setup_net_def_workspace in Hinfo.
    destruct (decide (input ∈ declared_outputs op_defs)); [discriminate|].
    destruct (ws !! input) as [t|] eqn:Ht; [|discriminate]. simpl in Hinfo.
    destruct (is_weight t) eqn:Hw; [discriminate|].
    injection Hinfo as <-. simpl. eauto.
Qed.

(** X2. In the net definition Setup hands to the executor, the dims of an
    input info are the shape of the tensor the workspace held under that
    name before the pass, unchanged, when every dimension of that tensor
    fits a 32-bit int. *)
Theorem Setup_input_info_dims
    (device : DeviceType) (s : State) (nd : NetDef) (dev : option Device)
    (info : InputInfo) :
  head (new_calls s (Setup E device s)) = Some (EvNewSerialNet nd dev) →
  info ∈ net_input_info nd →
  (∀ t, ws_ s !! input_info_name info = Some t → Forall fits_int (shape t)) →
  ∃ t, ws_ s !! input_info_name info = Some t ∧ is_weight t = false ∧
       input_info_dims info = shape t.
Proof.
  intros Hhead Hin Hfits.
  destruct (Setup_begins E device s) as (s0 & dev' & later & _ & _ & Hcalls).
  rewrite Hcalls in Hhead. simpl in Hhead. injection Hhead as <- _.
  destruct (Setup_net_def_input_infos _ _ _ Hin) as (t & Ht & Hw & Hdims).
  exists t. split; [exact Ht|]. split; [exact Hw|]. rewrite Hdims.
  apply cast_of_fitting_dims. by apply Hfits.
Qed.

Lemma declared_output_info_names (op_def : OperatorDef) :
  output_info_name <$> declared_output_infos op_def = op_output op_def.
Proof.
  unfold declared_output_infos. destruct (decide _) as [Heq|_].
  - revert Heq. generalize (op_output_type op_def).
    induction (op_output op_def) as [|n ns IH]; intros [|t ts] Hlen;
      try discriminate; [reflexivity|].
    simpl. f_equal. apply IH. simpl in Hlen. lia.
  - rewrite <- list_fmap_compose. simpl. apply list_fmap_id.
Qed.

Lemma declared_output_infos_names (op_defs : list OperatorDef) :
  output_info_name <$> (op_defs ≫= declared_output_infos) = declared_outputs op_defs.
Proof.
  unfold declared_outputs. induction op_defs as [|op_def ops IH]; [reflexivity|].
  rewrite !bind_cons, fmap_app, IH, declared_output_info_names. reflexivity.
Qed.

Lemma Setup_net_def_ops (op_defs : list OperatorDef) (acc : Workspace * NetDef) :
  net_op (foldl Setup_op acc op_defs).2 = net_op acc.2 ++ op_defs.
Proof.
  revert acc. induction op_defs as [|op_def op_defs IH]; intros acc; simpl.
  - by rewrite app_nil_r.
  - rewrite IH. destruct (Setup_op_net_def acc op_def) as [-> _].
    by rewrite <- app_assoc.
Qed.

(** X3. Whatever the workspace holds, the net definition Setup hands first
    to the executor and then to the preallocation has the accumulated
    operator definitions, in order, as its operators, and one output info
    per declared output, in order, under that output's name. *)
Theorem Setup_net_def_operators (device : DeviceType) (s : State) :
  ∃ nd dev st later,
    new_calls s (Setup E device s) =
      EvNewSerialNet nd dev :: EvPreallocate nd dev st :: later ∧
    net_op nd = op_defs_ s ∧
    output_info_name <$> net_output_info nd = declared_outputs (op_defs_ s).
Proof.
  destruct (Setup_begins E device s) as (s0 & dev & later & _ & _ & Hcalls).
  exists (Setup_net_def (op_defs_ s) (ws_ s)).2, dev,
    (ws_PreallocateOutputTensor E (Setup_net_def (op_defs_ s) (ws_ s)).2 dev s0).1, later.
  split; [exact Hcalls|]. unfold Setup_net_def. split.
  - rewrite Setup_net_def_ops. reflexivity.
  - destruct (Setup_net_def_from (op_defs_ s) (ws_ s, new_NetDef)) as [_ H].
    rewrite H. cbn [snd net_output_info new_NetDef]. rewrite app_nil_l.
    apply declared_output_infos_names.
Qed.

End NetDefinition.

(** The accumulated operators of the two-operator pass: the input "mid" of
    the second operator is the output of the first, and "filter" is a
    weight; only "image" gets an input info. *)
Example Conv_then_Relu_input_infos :
  net_input_info (Setup_net_def Conv_then_Relu Conv_then_Relu_ws).2 =
    [ {| input_info_name := "image"; input_info_dims := [8] |} ].
Proof. vm_compute. reflexivity. Qed.

(** The two-operator pass on the CPU: the info of "image" in the net
    definition handed to the executor has the shape of the tensor. *)
Lemma Setup_input_info_dims_witness :
  let E := answering MACE_SUCCESS MACE_SUCCESS MACE_SUCCESS true in
  let s := process_start Conv_then_Relu_ws Conv_then_Relu in
  let nd := (Setup_net_def Conv_then_Relu Conv_then_Relu_ws).2 in
  let info := {| input_info_name := "image"; input_info_dims := [8] |} in
  head (new_calls s (Setup E CPU s)) = Some (EvNewSerialNet nd (Some first_cpu)) ∧
  info ∈ net_input_info nd ∧
  ∃ t, ws_ s !! input_info_name info = Some t ∧ is_weight t = false ∧
       input_info_dims info = shape t.
Proof.
  cbv zeta.
  assert (Hhead :
    head (new_calls (process_start Conv_then_Relu_ws Conv_then_Relu)
            (Setup (answering MACE_SUCCESS MACE_SUCCESS MACE_SUCCESS true) CPU
                   (process_start Conv_then_Relu_ws Conv_then_Relu))) =
    Some (EvNewSerialNet (Setup_net_def Conv_then_Relu Conv_then_Relu_ws).2
            (Some first_cpu))).
  { vm_compute. reflexivity. }
  assert (Hin : {| input_info_name := "image"; input_info_dims := [8] |} ∈
                net_input_info (Setup_net_def Conv_then_Relu Conv_then_Relu_ws).2).
  { vm_compute. apply list_elem_of_here. }
  split; [exact Hhead|]. split; [exact Hin|].
  apply (Setup_input_info_dims _ _ _ _ _ _ Hhead Hin).
  intros t Ht. vm_compute in Ht. injection Ht as <-.
  repeat constructor; unfold fits_int; lia.
Defined.

(* ===================================================================== *)
(** * Further properties: what the calls keep of the harness              *)
(* ===================================================================== *)

Section HarnessKeeps.
Context (E : Collaborators) (I : State → Prop).
Hypothesis I_harness : about_harness I.
Hypothesis I_ws : ∀ w s, I s → I (with_ws w s).
Hypothesis I_net : ∀ n s, I s → I (with_net (Some n) s).
Hypothesis I_device_type : ∀ d s, I s → I (with_device_type d s).
Hypothesis I_event : ∀ e s, I s → I (with_event e s).

Lemma kept_modify (f : State → State) : (∀ s, I s → I (f s)) → stable I (modify f).
Proof. intros Hf s Hs. simpl. by apply Hf. Qed.

Lemma kept_Get n p g : stable I (Get E n p g).
Proof.
  intros s Hs. destruct (Get_returns E n p g s) as (id & s' & HG & Hh & _).
  rewrite HG. simpl. by eapply I_harness.
Qed.

Lemma kept_GetDevice d : stable I (GetDevice d).
Proof.
  intros s Hs. destruct (instance s) as [r|] eqn:Hr.
  - destruct (GetDevice_returns d s) as (s' & HD & Hh & _); [by eauto|].
    rewrite HD. simpl. by eapply I_harness.
  - unfold GetDevice, this_instance, mbind, M_bind. by rewrite Hr.
Qed.

Lemma kept_set_opencl_mem_types_ types : stable I (set_opencl_mem_types_ types).
Proof.
  intros s Hs. unfold set_opencl_mem_types_, this_instance, mbind, M_bind.
  destruct (instance s) as [r|]; simpl; [|exact Hs].
  eapply I_harness; [|exact Hs]. reflexivity.
Qed.

Ltac keep_step :=
  first
    [ apply stable_ret
    | apply stable_get
    | apply stable_this_instance
    | apply kept_Get
    | apply kept_GetDevice
    | apply stable_MACE_CHECK
    | apply stable_abort
    | apply kept_modify; intros ? ?;
        first [ by apply I_ws | by apply I_net | by apply I_device_type
              | by apply I_event ]
    | match goal with |- stable _ (if ?c then _ else _) => destruct c end
    | match goal with |- stable _ (match ?c with Some _ => _ | None => _ end) =>
        destruct c end
    | apply stable_bind; [|intros ?] ].

Lemma kept_new_SerialNet nd dev : stable I (new_SerialNet nd dev).
Proof. unfold new_SerialNet. repeat keep_step. Qed.

Lemma kept_PreallocateOutputTensor nd dev : stable I (PreallocateOutputTensor E nd dev).
Proof. unfold PreallocateOutputTensor. repeat keep_step. Qed.

Lemma kept_call_net what ev : stable I (call_net what ev).
Proof. unfold call_net. repeat keep_step. Qed.

Lemma kept_Setup device : stable I (Setup E device).
Proof.
  unfold Setup, Get_default.
  repeat first [ apply kept_new_SerialNet | apply kept_PreallocateOutputTensor
               | apply kept_call_net | keep_step ].
Qed.

Lemma kept_Sync : stable I (Sync E).
Proof. unfold Sync, Get_default. repeat keep_step. Qed.

Lemma kept_Run : stable I (Run E).
Proof.
  unfold Run. do 2 (apply stable_bind; [repeat keep_step|]; intros ?).
  unfold MACE_RETURN_IF_ERROR.
  apply stable_bind; [apply kept_call_net|]. intros status.
  destruct (decide _); [apply stable_ret|].
  apply stable_bind; [apply kept_Sync | intros ?; apply stable_ret].
Qed.

Lemma kept_RunNet nd device : stable I (RunNet E nd device).
Proof.
  unfold RunNet, Get_default, MACE_RETURN_IF_ERROR.
  repeat first [ apply kept_new_SerialNet | apply kept_PreallocateOutputTensor
               | apply kept_call_net | keep_step ].
Qed.

Lemma kept_RunOp_not_GPU device : device ≠ GPU → stable I (RunOp E device).
Proof.
  intros Hd. unfold RunOp. rewrite decide_False by exact Hd.
  apply stable_bind; [apply kept_Setup | intros ?; apply kept_Run].
Qed.

(** Every call but RunOp on the GPU device kind keeps the predicate. *)
Lemma kept_perform_not_RunOp_GPU (c : ApiCall) :
  is_RunOp_GPU c = false → stable I (perform E c).
Proof.
  intros Hc. destruct c; simpl.
  - apply stable_bind; [apply kept_Get | intros ?; apply stable_ret].
  - apply stable_bind; [apply kept_GetDevice | intros ?; apply stable_ret].
  - unfold gpu_context. repeat keep_step.
  - unfold opencl_mem_types. repeat keep_step.
  - apply kept_set_opencl_mem_types_.
  - apply kept_set_opencl_mem_types_.
  - apply kept_set_opencl_mem_types_.
  - apply stable_bind; [apply kept_Setup | intros ?; apply stable_ret].
  - apply stable_bind; [apply kept_Run | intros ?; apply stable_ret].
  - apply stable_bind; [|intros ?; apply stable_ret].
    apply kept_RunOp_not_GPU. intros ->. discriminate.
  - apply stable_bind; [apply kept_RunNet | intros ?; apply stable_ret].
  - apply kept_Sync.
Qed.

Section WithMemType.
Hypothesis I_mem_type : ∀ t s, I s → I (with_mem_type t s).

Lemma kept_set_mem_type dev type : stable I (set_mem_type dev type).
Proof.
  unfold set_mem_type. destruct dev as [[id [| ? ? ?]]|]; try apply stable_abort.
  apply stable_bind; [|intros ?; repeat keep_step].
  apply kept_modify. intros s Hs. by apply I_mem_type.
Qed.

Lemma kept_RunOp_loop device types : stable I (RunOp_loop E device types).
Proof.
  induction types as [|type rest IH]; simpl; [apply stable_ret|].
  unfold Get_default, MACE_RETURN_IF_ERROR.
  apply stable_bind; [apply kept_Get|]; intros ?.
  apply stable_bind; [apply kept_GetDevice|]; intros dev.
  apply stable_bind; [apply kept_set_mem_type|]; intros ?.
  apply stable_bind; [apply kept_Setup|]; intros ?.
  apply stable_bind; [apply kept_Run|]; intros status.
  destruct (decide _); [apply stable_ret | exact IH].
Qed.

Lemma kept_RunOp device : stable I (RunOp E device).
Proof.
  destruct (decide (device = GPU)) as [->|Hd]; [|by apply kept_RunOp_not_GPU].
  unfold RunOp, Get_default, opencl_mem_types. rewrite decide_True by reflexivity.
  apply stable_bind; [apply kept_Get|]; intros ?.
  apply stable_bind; [repeat keep_step|]; intros types.
  apply kept_RunOp_loop.
Qed.

Lemma kept_perform (c : ApiCall) : stable I (perform E c).
Proof.
  destruct (is_RunOp_GPU c) eqn:Hc; [|by apply kept_perform_not_RunOp_GPU].
  destruct c; try discriminate. simpl.
  apply stable_bind; [apply kept_RunOp | intros ?; apply stable_ret].
Qed.

Lemma kept_perform_all (cs : list ApiCall) : stable I (perform_all E cs).
Proof.
  induction cs as [|c cs IH]; simpl; [apply stable_ret|].
  apply stable_bind; [apply kept_perform | intros ?; exact IH].
Qed.

End WithMemType.

Lemma kept_perform_all_not_RunOp_GPU (cs : list ApiCall) :
  forallb (λ c, negb (is_RunOp_GPU c)) cs = true → stable I (perform_all E cs).
Proof.
  induction cs as [|c cs IH]; simpl; [intros _; apply stable_ret|].
  intros [Hc Hcs]%andb_true_iff.
  apply stable_bind; [|intros ?; by apply IH].
  apply kept_perform_not_RunOp_GPU. by destruct (is_RunOp_GPU c).
Qed.

End HarnessKeeps.

Section HarnessProperties.
Context (E : Collaborators).

(** X4. No function of the file changes the accumulated operator
    definitions: whatever a test calls, every later Setup builds its net
    definition from the same list. *)
Theorem op_defs_are_kept (cs : list ApiCall) (s : State) :
  op_defs_ (final_state (perform_all E cs s)) = op_defs_ s.
Proof.
  apply (kept_perform_all E (λ s', op_defs_ s' = op_defs_ s)); try reflexivity.
  - intros s1 s2 Hh Hs. unfold harness_of in Hh.
    injection Hh as _ Hops _ _ _ _. congruence.
  - intros w s1 Hs. exact Hs.
  - intros n s1 Hs. exact Hs.
  - intros d s1 Hs. exact Hs.
  - intros e s1 Hs. exact Hs.
  - intros t s1 Hs. exact Hs.
Qed.

Lemma executor_is_kept (cs : list ApiCall) (s : State) :
  is_Some (net_ s) → is_Some (net_ (final_state (perform_all E cs s))).
Proof.
  apply (kept_perform_all E (λ s', is_Some (net_ s'))).
  - intros s1 s2 Hh Hs. unfold harness_of in Hh.
    injection Hh as _ _ Hnet _ _ _. by rewrite Hnet.
  - intros w s1 Hs. exact Hs.
  - intros n s1 Hs. simpl. eauto.
  - intros d s1 Hs. exact Hs.
  - intros e s1 Hs. exact Hs.
  - intros t s1 Hs. exact Hs.
Qed.

(** X5. Run aborts, calling nothing, when no executor was ever built. Once
    Setup has been called, whatever it returned and whatever the test calls
    afterwards, the executor is never cleared and Run does not abort. *)
Theorem Run_aborts_only_without_executor (device : DeviceType) (cs : list ApiCall) (s : State) :
  (net_ s = None → Run E s = Fatal "net_ must not be null" s) ∧
  is_Some (net_ (final_state (perform_all E cs (final_state (Setup E device s))))) ∧
  is_fatal (Run E (final_state (perform_all E cs (final_state (Setup E device s))))) = false.
Proof.
  split; [apply Run_without_executor|].
  destruct (Setup_calls E device s) as (b & s1 & evs & HS & _ & _ & Hnet & _).
  rewrite HS. simpl.
  pose proof (executor_is_kept cs s1 Hnet) as [net Hnet2].
  split; [eauto|].
  destruct (Run_spec E _ net Hnet2) as (s' & HR & _). by rewrite HR.
Qed.

(** X6. The memory type of the GPU runtime is set by RunOp on the GPU device
    kind only: every other call, Setup, Run, RunNet and RunOp on another
    device kind included, leaves it as it is. *)
Theorem mem_type_is_kept (cs : list ApiCall) (s : State) :
  forallb (λ c, negb (is_RunOp_GPU c)) cs = true →
  mem_type (final_state (perform_all E cs s)) = mem_type s.
Proof.
  intros Hcs.
  apply (kept_perform_all_not_RunOp_GPU E (λ s', mem_type s' = mem_type s));
    try reflexivity; try exact Hcs.
  - intros s1 s2 Hh Hs. unfold harness_of in Hh.
    injection Hh as _ _ _ _ Hmt _. congruence.
  - intros w s1 Hs. exact Hs.
  - intros n s1 Hs. exact Hs.
  - intros d s1 Hs. exact Hs.
  - intros e s1 Hs. exact Hs.
Qed.

(** X9. RunNet never aborts and records the device kind at once. It calls
    the preallocation with the net definition it was given, then Init, then
    the executor's run, and stops at the first of them that does not
    succeed, returning its status; when all succeed it returns the status of
    the run. It leaves the accumulated operator definitions alone. *)
Theorem RunNet_stages (nd : NetDef) (device : DeviceType) (s : State) :
  is_fatal (RunNet E nd device s) = false ∧
  device_type_ (final_state (RunNet E nd device s)) = device ∧
  op_defs_ (final_state (RunNet E nd device s)) = op_defs_ s ∧
  ∃ dev status,
    returned (RunNet E nd device s) = Some status ∧
    ((status ≠ MACE_SUCCESS ∧
      new_calls s (RunNet E nd device s) =
        [EvNewSerialNet nd dev; EvPreallocate nd dev status]) ∨
     (status ≠ MACE_SUCCESS ∧
      new_calls s (RunNet E nd device s) =
        [EvNewSerialNet nd dev; EvPreallocate nd dev MACE_SUCCESS; EvInit status]) ∨
     new_calls s (RunNet E nd device s) =
       [EvNewSerialNet nd dev; EvPreallocate nd dev MACE_SUCCESS;
        EvInit MACE_SUCCESS; EvRun status]).
Proof.
  destruct (RunNet_spec E nd device s) as (s0 & dev & Hh & HR). cbv zeta in *.
  unfold harness_of in Hh. injection Hh as _ Hops _ Hdt _ Htr.
  rewrite HR. clear HR.
  set (p := ws_PreallocateOutputTensor E nd dev s0).
  destruct (decide (p.1 ≠ MACE_SUCCESS)) as [Hp|Hp].
  { simpl. repeat (split; [done|]). exists dev, p.1. split; [reflexivity|].
    left. split; [exact Hp|]. eapply new_calls_app; [reflexivity|].
    simpl. rewrite Htr, <- app_assoc. reflexivity. }
  assert (Hp' : p.1 = MACE_SUCCESS)
    by (destruct (decide (p.1 = MACE_SUCCESS)); [assumption | contradiction]).
  match goal with |- context [decide (?x ≠ MACE_SUCCESS)] => set (i := x) end.
  destruct (decide (i ≠ MACE_SUCCESS)) as [Hi|Hi].
  { simpl. repeat (split; [done|]). exists dev, i. split; [reflexivity|].
    right. left. split; [exact Hi|]. eapply new_calls_app; [reflexivity|].
    simpl. rewrite Htr, <- !app_assoc, Hp'. reflexivity. }
  assert (Hi' : i = MACE_SUCCESS)
    by (destruct (decide (i = MACE_SUCCESS)); [assumption | contradiction]).
  simpl. repeat (split; [done|]). eexists dev, _. split; [reflexivity|].
  right. right. eapply new_calls_app; [reflexivity|].
  simpl. rewrite Htr, <- !app_assoc, Hp'. fold i. rewrite Hi'. reflexivity.
Qed.

(** X10. Setup always replaces the executor by one built from the net
    definition of this pass, also when it returns false; it records the
    device kind when the preallocation succeeded, also when Init then fails,
    and leaves the recorded kind as it was when the preallocation failed. *)
Theorem Setup_members (device : DeviceType) (s : State) :
  ∃ dev,
    net_ (final_state (Setup E device s)) =
      Some {| serial_net_def := (Setup_net_def (op_defs_ s) (ws_ s)).2;
              serial_net_device := dev |} ∧
    head (new_calls s (Setup E device s)) =
      Some (EvNewSerialNet (Setup_net_def (op_defs_ s) (ws_ s)).2 dev) ∧
    device_type_ (final_state (Setup E device s)) =
      (if decide (preallocations_of (new_calls s (Setup E device s)) = [MACE_SUCCESS])
       then device else device_type_ s) ∧
    op_defs_ (final_state (Setup E device s)) = op_defs_ s.
Proof.
  destruct (Setup_spec E device s) as (s0 & dev & Hh & _ & _ & HS). cbv zeta in *.
  unfold harness_of in Hh. injection Hh as _ Hops Hnet Hdt _ Htr.
  exists dev. rewrite HS. clear HS.
  set (nd := (Setup_net_def (op_defs_ s) (ws_ s)).2) in *.
  set (p := ws_PreallocateOutputTensor E nd dev s0).
  destruct (decide (p.1 ≠ MACE_SUCCESS)) as [Hp|Hp].
  - erewrite new_calls_app;
      [|reflexivity|simpl; rewrite Htr, <- app_assoc; reflexivity].
    simpl. split; [exact Hnet|]. split; [reflexivity|]. split; [|exact Hops].
    rewrite decide_False by congruence. exact Hdt.
  - assert (Hp' : p.1 = MACE_SUCCESS)
      by (destruct (decide (p.1 = MACE_SUCCESS)); [assumption | contradiction]).
    erewrite new_calls_app;
      [|reflexivity|simpl; rewrite Htr, <- !app_assoc; reflexivity].
    simpl. split; [exact Hnet|]. split; [reflexivity|]. split; [|exact Hops].
    rewrite Hp'. by rewrite decide_True.
Qed.

(** X11. When the executor's run does not succeed, Run returns its status
    unchanged and does not call Sync: the run is its only call, also on the
    GPU device kind. *)
Theorem Run_returns_failure (s : State) (net : SerialNet) :
  net_ s = Some net → (net_Run E net s).1 ≠ MACE_SUCCESS →
  returned (Run E s) = Some (net_Run E net s).1 ∧
  new_calls s (Run E s) = [EvRun (net_Run E net s).1] ∧
  ws_ (final_state (Run E s)) = (net_Run E net s).2.
Proof.
  intros Hnet Hf. destruct (Run_spec E s net Hnet) as (s' & HR & Hh).
  cbv zeta in *. rewrite HR. unfold harness_of in Hh.
  injection Hh as Hws _ _ _ _ Htr. rewrite decide_True in Htr by exact Hf.
  split; [reflexivity|]. split; [|exact Hws].
  eapply new_calls_app; [reflexivity|exact Htr].
Qed.

(** X12. Sync waits for the queue of the GPU exactly when the file is
    compiled with OpenCL, an executor exists and the device kind recorded
    last is GPU. Otherwise it does nothing at all: it does not even construct
    the registry. When it waits, that is its only call and the members of
    the harness are unchanged. *)
Theorem Sync_waits_only_for_GPU (s : State) :
  (waits_for_gpu E s = false → Sync E s = Ok tt s) ∧
  (waits_for_gpu E s = true →
   is_fatal (Sync E s) = false ∧ new_calls s (Sync E s) = [EvFinish] ∧
   ws_ (final_state (Sync E s)) = ws_ s ∧ net_ (final_state (Sync E s)) = net_ s ∧
   device_type_ (final_state (Sync E s)) = device_type_ s).
Proof.
  split.
  - unfold waits_for_gpu, Sync. destruct (MACE_ENABLE_OPENCL E); [|reflexivity].
    simpl. intros Hw. rewrite bind_get, Hw. reflexivity.
  - intros Hw. destruct (Sync_spec E s) as (s' & HS & Hh). rewrite HS, Hw in *.
    unfold harness_of in Hh. injection Hh as Hws _ Hnet Hdt _ Htr.
    split; [reflexivity|]. split; [|by auto].
    eapply new_calls_app; [reflexivity|exact Htr].
Qed.

End HarnessProperties.

(* ===================================================================== *)
(** * Further properties: RunOp and the memory types                      *)
(* ===================================================================== *)

Section MemoryTypes.
Context (E : Collaborators).

Lemma full_cycle_projections (type : MemoryType) (status : MaceStatus) (evs : list Event) :
  full_cycle type status evs → mem_types_of evs = [type] ∧ runs_of evs = [status].
Proof.
  intros [setup run Hsetup Hrun]. destruct Hsetup; destruct Hrun; split; reflexivity.
Qed.

Lemma cycles_projections (cycles : list Cycle) :
  Forall is_full_cycle cycles →
  mem_types_of (concat (cycle_calls <$> cycles)) = cycle_type <$> cycles ∧
  runs_of (concat (cycle_calls <$> cycles)) = cycle_status <$> cycles.
Proof.
  induction 1 as [|c cycles Hc _ [IH1 IH2]]; [split; reflexivity|].
  destruct (full_cycle_projections _ _ _ Hc) as [H1 H2].
  rewrite !fmap_cons. cbn [concat]. unfold mem_types_of, runs_of in *.
  rewrite !omap_app, IH1, IH2, H1, H2. split; reflexivity.
Qed.

Ltac kept_mem_type :=
  first
    [ reflexivity
    | intros ? ? Hh Hs; unfold harness_of in Hh;
      injection Hh as _ _ _ _ Hmt _; congruence
    | intros ? ? Hs; exact Hs ].

Lemma mem_type_kept_by_Setup (device : DeviceType) (s : State) :
  mem_type (final_state (Setup E device s)) = mem_type s.
Proof. apply (kept_Setup E (λ s', mem_type s' = mem_type s)); kept_mem_type. Qed.

Lemma mem_type_kept_by_Run (s : State) :
  mem_type (final_state (Run E s)) = mem_type s.
Proof. apply (kept_Run E (λ s', mem_type s' = mem_type s)); kept_mem_type. Qed.

(** One pass of the loop of RunOp(GPU), with the memory type it leaves. *)
Lemma RunOp_cycle_mem_type {B} (type : MemoryType) (k : MaceStatus → M State B) (s : State) :
  well_formed s →
  ∃ s' status evs,
    (Get_default E ≫= λ _, GetDevice GPU ≫= λ dev, set_mem_type dev type ≫= λ _,
       Setup E GPU ≫= λ _, Run E ≫= k) s = k status s' ∧
    trace s' = trace s ++ evs ∧ full_cycle type status evs ∧ well_formed s' ∧
    mem_type s' = type.
Proof.
  intros Hwf.
  destruct (Get_GetDevice E GPU
              (λ dev, set_mem_type dev type ≫= λ _, Setup E GPU ≫= λ _, Run E ≫= k) s)
    as (s1 & Heq & Hh1 & Hi1 & _ & _ & Hwf1).
  rewrite Heq. clear Heq. specialize (Hwf1 Hwf).
  destruct (gpu_device_of s1 Hwf1 Hi1) as (id & t & c & h & Hdev). rewrite Hdev.
  cbn [set_mem_type]. rewrite bind_assoc, bind_modify, bind_emit.
  set (s2 := with_event (EvSetMemType type) (with_mem_type type s1)).
  assert (Hwf2 : well_formed s2) by exact Hwf1.
  destruct (Setup_calls E GPU s2) as (b & s3 & setup & HS & Htr3 & Hsetup & [net Hnet] & _).
  pose proof (well_formed_Setup E GPU s2 Hwf2) as Hwf3.
  pose proof (mem_type_kept_by_Setup GPU s2) as Hmt3.
  rewrite HS in Hwf3, Hmt3. simpl in Hwf3, Hmt3.
  rewrite (bind_Ok _ _ _ _ _ HS).
  destruct (Run_spec E s3 net Hnet) as (s4 & HR & Hh4). cbv zeta in *.
  pose proof (well_formed_Run E s3 Hwf3) as Hwf4.
  pose proof (mem_type_kept_by_Run s3) as Hmt4.
  rewrite HR in Hwf4, Hmt4. simpl in Hwf4, Hmt4.
  rewrite (bind_Ok _ _ _ _ _ HR).
  set (r := net_Run E net s3) in *.
  exists s4, r.1.
  exists (EvSetMemType type :: setup ++
            EvRun r.1 :: if decide (r.1 ≠ MACE_SUCCESS) then []
                         else if waits_for_gpu E (with_event (EvRun r.1) (with_ws r.2 s3))
                              then [EvFinish] else []).
  split; [reflexivity|]. split; [|split; [|split; [exact Hwf4|]]].
  - unfold harness_of in Hh4. injection Hh4 as _ _ _ _ _ Htr4.
    rewrite Htr4, Htr3. unfold s2. simpl.
    unfold harness_of in Hh1. injection Hh1 as _ _ _ _ _ Htr1. rewrite Htr1.
    rewrite <- !app_assoc. reflexivity.
  - constructor; [exact Hsetup|].
    destruct (decide (r.1 ≠ MACE_SUCCESS)) as [Hf|Hok]; [constructor|].
    destruct (waits_for_gpu E _); [|constructor].
    apply run_calls_finish.
    destruct (decide (r.1 = MACE_SUCCESS)); [assumption | contradiction].
  - rewrite Hmt4, Hmt3. reflexivity.
Qed.

Lemma RunOp_loop_mem_type (types : list MemoryType) (s : State) :
  well_formed s →
  ∃ (cycles : list Cycle) (s' : State) (status : MaceStatus),
    RunOp_loop E GPU types s = Ok status s' ∧
    trace s' = trace s ++ concat (cycle_calls <$> cycles) ∧
    Forall is_full_cycle cycles ∧
    mem_type s' = default (mem_type s) (last (cycle_type <$> cycles)).
Proof.
  revert s. induction types as [|type rest IH]; intros s Hwf.
  - exists [], s, MACE_SUCCESS. simpl. rewrite app_nil_r. repeat split. constructor.
  - cbn [RunOp_loop]. unfold MACE_RETURN_IF_ERROR.
    destruct (RunOp_cycle_mem_type type
                (λ status, if decide (status ≠ MACE_SUCCESS) then mret status
                           else RunOp_loop E GPU rest) s Hwf)
      as (s1 & status & evs & Heq & Htr & Hcy & Hwf1 & Hmt).
    rewrite Heq. clear Heq.
    set (this := {| cycle_type := type; cycle_status := status; cycle_calls := evs |}).
    destruct (decide (status ≠ MACE_SUCCESS)) as [Hf|Hok].
    + exists [this], s1, status. simpl. rewrite app_nil_r.
      split; [reflexivity|]. split; [exact Htr|].
      split; [by repeat constructor|exact Hmt].
    + destruct (IH s1 Hwf1) as (cycles & s2 & status2 & HL & Htr2 & Hall & Hmt2).
      exists (this :: cycles), s2, status2. rewrite HL.
      split; [reflexivity|]. split.
      { rewrite Htr2, Htr. simpl. by rewrite <- app_assoc. }
      split; [by constructor|].
      rewrite Hmt2, Hmt, fmap_cons. simpl cycle_type.
      destruct (cycle_type <$> cycles) as [|t ts]; [reflexivity|].
      rewrite last_cons_cons.
      destruct (last (t :: ts)) eqn:Hl; [reflexivity|].
      apply last_None in Hl. discriminate.
Qed.

Lemma RunOp_GPU_enters_loop_harness (s : State) :
  well_formed s →
  ∃ s1, RunOp E GPU s = RunOp_loop E GPU (permitted_mem_types s) s1 ∧
        harness_of s1 = harness_of s ∧ well_formed s1.
Proof.
  intros Hwf. unfold RunOp. rewrite decide_True by reflexivity.
  destruct (Get_returns E (default_num_threads E) (default_cpu_affinity_policy E)
              (default_use_gemmlowp E) s) as (id & s1 & HG & Hh1 & [r Hr] & Hp1).
  pose proof (well_formed_Get E (default_num_threads E)
                (default_cpu_affinity_policy E) (default_use_gemmlowp E) s Hwf) as Hwf1.
  rewrite HG in Hwf1. simpl in Hwf1.
  unfold Get_default. rewrite (bind_Ok _ _ _ _ _ HG).
  assert (Hty : opencl_mem_types s1 = Ok (permitted_mem_types s) s1).
  { rewrite <- Hp1. unfold opencl_mem_types, this_instance, permitted_mem_types,
      mbind, M_bind. by rewrite Hr. }
  rewrite (bind_Ok _ _ _ _ _ Hty). exists s1. auto.
Qed.

(** X7. RunOp on the GPU device kind does not restore the memory type of the
    GPU runtime: when it returns, the active type is the last one it set,
    that of the last cycle it attempted; it is unchanged only when it set
    none, the list of permitted types being empty. *)
Theorem RunOp_GPU_leaves_last_mem_type (s : State) :
  well_formed s →
  is_fatal (RunOp E GPU s) = false ∧
  mem_type (final_state (RunOp E GPU s)) =
    default (mem_type s) (last (mem_types_of (new_calls s (RunOp E GPU s)))).
Proof.
  intros Hwf.
  destruct (RunOp_GPU_enters_loop_harness s Hwf) as (s1 & HR & Hh & Hwf1).
  rewrite HR. unfold harness_of in Hh. injection Hh as _ _ _ _ Hmt Htr1.
  destruct (RunOp_loop_mem_type (permitted_mem_types s) s1 Hwf1)
    as (cycles & s' & status & HL & Htr & Hall & Hmt').
  rewrite HL. simpl.
  erewrite new_calls_app; [|reflexivity|simpl; rewrite Htr, Htr1; reflexivity].
  destruct (cycles_projections cycles Hall) as [-> _].
  split; [reflexivity|]. by rewrite Hmt', Hmt.
Qed.

(** X8. After the test chose both memory types, RunOp on the GPU device kind
    tries the image layout first; it goes on to the buffer layout exactly
    when the Run of the image cycle returned MACE_SUCCESS. *)
Theorem RunOp_GPU_both_tries_image_first (s : State) :
  well_formed s → is_Some (instance s) →
  let s' := final_state (SetOCLImageAndBufferTestFlag s) in
  permitted_mem_types s' = [GPU_IMAGE; GPU_BUFFER] ∧
  mem_types_of (new_calls s' (RunOp E GPU s')) =
    (if decide (head (runs_of (new_calls s' (RunOp E GPU s'))) = Some MACE_SUCCESS)
     then [GPU_IMAGE; GPU_BUFFER] else [GPU_IMAGE]).
Proof.
  intros Hwf [r Hr] s'.
  assert (Hwf' : well_formed s').
  { apply well_formed_set_opencl_mem_types_. exact Hwf. }
  assert (Hp : permitted_mem_types s' = [GPU_IMAGE; GPU_BUFFER]).
  { unfold s', SetOCLImageAndBufferTestFlag, set_opencl_mem_types_, this_instance,
      mbind, M_bind, permitted_mem_types. rewrite Hr. reflexivity. }
  split; [exact Hp|].
  destruct (RunOp_GPU_enters_loop E s' Hwf') as (s1 & HR & Htr1 & Hwf1).
  rewrite HR, Hp.
  destruct (RunOp_loop_cycles E [GPU_IMAGE; GPU_BUFFER] s1 Hwf1)
    as (cycles & s2 & status & HL & Htr & Hall & Hres).
  rewrite HL.
  erewrite new_calls_app; [|reflexivity|simpl; rewrite Htr, Htr1; reflexivity].
  destruct (cycles_projections cycles Hall) as [-> ->].
  destruct Hres as [(_ & Hty & Hok)|(Hf & before & failing & later & -> & Hst & Hb & Hty)].
  - rewrite Hty. destruct cycles as [|c1 cycles]; [discriminate|].
    apply Forall_cons in Hok as [Hc1 _]. simpl. rewrite Hc1.
    by rewrite decide_True.
  - destruct before as [|c1 [|c2 before]].
    + simpl in *. injection Hty as <- _. rewrite Hst.
      rewrite decide_False by congruence. reflexivity.
    + simpl in *. injection Hty as <- <- _.
      apply Forall_cons in Hb as [Hc1 _]. rewrite Hc1.
      by rewrite decide_True.
    + exfalso. apply (f_equal length) in Hty.
      rewrite length_app, !length_fmap, length_app in Hty. simpl in Hty. lia.
Qed.

(** X18. RunOp on a device kind other than GPU does not touch the memory
    types: it makes one pass of Setup and one call of the executor's run,
    and returns the status of that run. *)
Theorem RunOp_other_device (device : DeviceType) (s : State) :
  device ≠ GPU →
  (∃ status, returned (RunOp E device s) = Some status ∧
             runs_of (new_calls s (RunOp E device s)) = [status]) ∧
  length (preallocations_of (new_calls s (RunOp E device s))) = 1%nat ∧
  mem_types_of (new_calls s (RunOp E device s)) = [] ∧
  mem_type (final_state (RunOp E device s)) = mem_type s.
Proof.
  intros Hd.
  destruct (RunOp_CPU_calls E device s Hd)
    as (b & s1 & setup & st & sync & _ & Hsetup & Hrun & Hret & Hcalls).
  rewrite Hcalls, Hret. split; [|split; [|split]].
  - exists st. split; [reflexivity|].
    destruct Hsetup; inversion Hrun; reflexivity.
  - destruct Hsetup; inversion Hrun; reflexivity.
  - destruct Hsetup; inversion Hrun; reflexivity.
  - apply (kept_RunOp_not_GPU E (λ s', mem_type s' = mem_type s));
      first [exact Hd | kept_mem_type].
Qed.

End MemoryTypes.

(* ===================================================================== *)
(** * Further properties: the registry                                    *)
(* ===================================================================== *)

Section RegistryProperties.
Context (E : Collaborators).

Lemma no_other_device_about_registry : about_registry no_other_device.
Proof. intros s s' H. unfold no_other_device. by rewrite H. Qed.

Lemma no_other_device_Get n p g : stable no_other_device (Get E n p g).
Proof.
  intros s Hs. destruct (instance s) as [r|] eqn:Hr.
  - by rewrite (Get_existing E n p g s r Hr).
  - destruct (Get_first E n p g s Hr) as (s' & HG & _ & Hi). rewrite HG. simpl.
    intros r' Hr'. rewrite Hi in Hr'. injection Hr' as <-. simpl.
    rewrite !lookup_insert_ne by discriminate. by rewrite lookup_empty.
Qed.

Lemma no_other_device_GetDevice d : stable no_other_device (GetDevice d).
Proof.
  intros s Hs. unfold GetDevice, this_instance, mbind, M_bind.
  destruct (instance s) as [r|] eqn:Hr; simpl; [|exact Hs].
  destruct (device_map_ r !! d) as [dev|] eqn:Hd; simpl.
  - intros r' Hr'. apply Hs. congruence.
  - intros r' Hr'. simpl in Hr'. injection Hr' as <-. simpl.
    destruct (decide (d = HEXAGON)) as [->|Hne].
    + by rewrite lookup_insert_eq.
    + rewrite lookup_insert_ne by exact Hne. by apply Hs.
Qed.

Lemma no_other_device_set_opencl_mem_types_ types :
  stable no_other_device (set_opencl_mem_types_ types).
Proof.
  intros s Hs. unfold set_opencl_mem_types_, this_instance, mbind, M_bind.
  destruct (instance s) as [r|] eqn:Hr; simpl.
  - intros r' Hr'. simpl in Hr'. injection Hr' as <-. simpl. by apply Hs.
  - intros r' Hr'. congruence.
Qed.

(** X13. Only the CPU and GPU devices are ever constructed: in a process
    started without a registry, whatever the test called, GetDevice for
    another device kind returns a null pointer, does not abort, and leaves
    the devices of every kind as they were. *)
Theorem GetDevice_other_kind_is_null (cs : list ApiCall) (s0 : State) :
  instance s0 = None →
  is_Some (instance (final_state (perform_all E cs s0))) →
  returned (GetDevice HEXAGON (final_state (perform_all E cs s0))) = Some None ∧
  ∀ d, device_of d (final_state (GetDevice HEXAGON (final_state (perform_all E cs s0)))) =
       device_of d (final_state (perform_all E cs s0)).
Proof.
  intros Hfresh Hi. set (s := final_state (perform_all E cs s0)) in *.
  assert (Hno : no_other_device s).
  { apply stable_perform_all.
    - apply no_other_device_about_registry.
    - apply no_other_device_Get.
    - apply no_other_device_GetDevice.
    - intros c _ _ types. apply no_other_device_set_opencl_mem_types_.
    - intros r Hr. congruence. }
  destruct (GetDevice_returns HEXAGON s Hi) as (s' & HD & _ & _ & _ & Hdev).
  rewrite HD. simpl. split; [|exact Hdev].
  f_equal. unfold device_of. destruct Hi as [r Hr]. rewrite Hr. by apply Hno.
Qed.

Lemma holds_gpu_context_about_registry ctx : about_registry (holds_gpu_context ctx).
Proof. intros s s' H. unfold holds_gpu_context. by rewrite H. Qed.

Lemma holds_gpu_context_Get ctx n p g : stable (holds_gpu_context ctx) (Get E n p g).
Proof.
  intros s (r & Hr & Hc). rewrite (Get_existing E n p g s r Hr). simpl. by exists r.
Qed.

Lemma holds_gpu_context_GetDevice ctx d : stable (holds_gpu_context ctx) (GetDevice d).
Proof.
  intros s (r & Hr & Hc). unfold GetDevice, this_instance, mbind, M_bind. rewrite Hr.
  destruct (device_map_ r !! d); simpl.
  - by exists r.
  - eexists. split; [reflexivity|]. exact Hc.
Qed.

Lemma holds_gpu_context_set_opencl_mem_types_ ctx types :
  stable (holds_gpu_context ctx) (set_opencl_mem_types_ types).
Proof.
  intros s (r & Hr & Hc).
  unfold set_opencl_mem_types_, this_instance, mbind, M_bind. rewrite Hr. simpl.
  eexists. split; [reflexivity|]. exact Hc.
Qed.

(** X14. The GPU context is constructed by the first Get from the storage
    path of the environment, the empty path when the variable is not set,
    and the registry hands out that same context ever after, whatever the
    test calls. *)
Theorem gpu_context_is_kept
    (n : Z) (p : CPUAffinityPolicy) (g : bool) (cs : list ApiCall) (s : State) :
  instance s = None →
  let s1 := final_state (Get E n p g s) in
  let s2 := final_state (perform_all E cs s1) in
  let ctx := {| gpu_context_id := S (constructed s);
                storage_path := default "" (getenv E "MACE_INTERNAL_STORAGE_PATH") |} in
  gpu_context s1 = Ok ctx s1 ∧ gpu_context s2 = Ok ctx s2.
Proof.
  intros Hfresh s1 s2 ctx.
  destruct (Get_first E n p g s Hfresh) as (s1' & HG & _ & Hi).
  assert (Hs1 : s1 = s1') by (unfold s1; by rewrite HG).
  assert (H1 : holds_gpu_context ctx s1).
  { rewrite Hs1. eexists. split; [exact Hi|]. reflexivity. }
  assert (H2 : holds_gpu_context ctx s2).
  { apply stable_perform_all; [apply holds_gpu_context_about_registry
      | apply holds_gpu_context_Get | apply holds_gpu_context_GetDevice
      | intros c _ _ types; apply holds_gpu_context_set_opencl_mem_types_
      | exact H1]. }
  assert (Hread : ∀ s', holds_gpu_context ctx s' → gpu_context s' = Ok ctx s').
  { intros s' (r & Hr & Hc). unfold gpu_context, this_instance, mbind, M_bind.
    rewrite Hr. simpl. by rewrite Hc. }
  split; by apply Hread.
Qed.

End RegistryProperties.

(* ===================================================================== *)
(** * Further properties: the builder                                     *)
(* ===================================================================== *)

Section BuilderProperties.
Import Builder.

(** A chain that runs on another object leaves the object at [k] alone. *)
Lemma chain_elsewhere (cs : list Call) (this k : nat) (σ : Objects) (b : OpDefBuilder) :
  this ≠ k → (k < length σ)%nat → σ !! this = Some b →
  ∃ σ' l, chain cs this σ = Some (σ', l) ∧ σ' !! k = σ !! k.
Proof.
  revert this σ b. induction cs as [|c cs IH]; intros this σ b Hne Hk Hb; simpl.
  - eauto.
  - destruct (invoke_objects c this σ b Hb) as (b' & _ & Hinv). rewrite Hinv.
    assert (Hthis : (this < length σ)%nat) by (eapply lookup_lt_Some; eassumption).
    destruct (returns_by_value c); simpl.
    + destruct (IH (length σ) (<[this := b']> σ ++ [b']) b') as (σ' & l & Hch & Hl).
      * lia.
      * rewrite length_app, length_insert. lia.
      * rewrite lookup_app_r by (rewrite length_insert; lia).
        by rewrite length_insert, Nat.sub_diag.
      * exists σ', l. split; [exact Hch|]. rewrite Hl.
        rewrite lookup_app_l by (rewrite length_insert; lia).
        by apply list_lookup_insert_ne.
    + destruct (IH this (<[this := b']> σ) b') as (σ' & l & Hch & Hl).
      * exact Hne.
      * by rewrite length_insert.
      * by apply list_lookup_insert_eq.
      * exists σ', l. split; [exact Hch|]. rewrite Hl.
        by apply list_lookup_insert_ne.
Qed.

Lemma chain_on_named_builder (cs : list Call) (σ : Objects) (b : OpDefBuilder) :
  σ !! 0%nat = Some b →
  ∃ σ' l b0, chain cs 0%nat σ = Some (σ', l) ∧ σ' !! 0%nat = Some b0 ∧
             op_def_ b0 = extended (op_def_ b) (up_to_first_by_value cs).
Proof.
  revert σ b. induction cs as [|c cs IH]; intros σ b Hb.
  - exists σ, 0%nat, b. simpl. by rewrite extended_nil.
  - cbn [chain up_to_first_by_value].
    destruct (invoke_objects c 0%nat σ b Hb) as (b' & Hd & Hinv). rewrite Hinv.
    assert (H0 : (0 < length σ)%nat) by (eapply lookup_lt_Some; eassumption).
    destruct (returns_by_value c); simpl.
    + destruct (chain_elsewhere cs (length σ) 0%nat (<[0%nat := b']> σ ++ [b']) b')
        as (σ' & l & Hch & Hl).
      * lia.
      * rewrite length_app, length_insert. lia.
      * rewrite lookup_app_r by (rewrite length_insert; lia).
        by rewrite length_insert, Nat.sub_diag.
      * exists σ', l, b'. split; [exact Hch|]. split; [|exact Hd].
        rewrite Hl, lookup_app_l by (rewrite length_insert; lia).
        by apply list_lookup_insert_eq.
    + destruct (IH (<[0%nat := b']> σ) b') as (σ' & l & b0 & Hch & Hl & Hd0).
      * by apply list_lookup_insert_eq.
      * exists σ', l, b0. split; [exact Hch|]. split; [exact Hl|].
        by rewrite Hd0, Hd, extended_cons.
Qed.

(** X15. The methods that add an attribute return the builder by value. A
    fluent chain written on a named builder therefore leaves in that
    builder the calls up to and including the first Add...Arg only; the
    later calls of the chain reach a temporary copy, and a Finalize of the
    named builder afterwards does not see them. *)
Theorem chain_reaches_named_builder_until_first_copy
    (type name : string) (cs : list Call) (dest : nat) (mem : Destinations) :
  ∃ σ l b0,
    chain cs 0%nat [OpDefBuilder_new type name] = Some (σ, l) ∧
    σ !! 0%nat = Some b0 ∧
    Finalize b0 (Some dest) mem =
      Ok tt (<[dest := described type name (up_to_first_by_value cs)]> mem).
Proof.
  destruct (chain_on_named_builder cs [OpDefBuilder_new type name]
              (OpDefBuilder_new type name) eq_refl) as (σ & l & b0 & Hch & Hl & Hd).
  exists σ, l, b0. split; [exact Hch|]. split; [exact Hl|].
  by rewrite Finalize_stores, Hd, described_extended.
Qed.

Lemma attribute_of_by_value (c : Call) :
  returns_by_value c = true → ∃ a, attribute_of c = Some a.
Proof. destruct c; try discriminate; simpl; eauto. Qed.

(** X16. The attribute a call adds tells the call: two Add...Arg calls that
    leave the same objects are the same call, with one exception, an empty
    integer sequence and an empty float sequence under the same name, which
    leave the same attribute, a name with no value. *)
Theorem attribute_tells_its_call (this : nat) (σ : Objects) :
  (∀ n, invoke (CAddIntsArg n []) this σ = invoke (CAddFloatsArg n []) this σ) ∧
  (∀ c c' b,
      σ !! this = Some b →
      returns_by_value c = true → returns_by_value c' = true →
      invoke c this σ = invoke c' this σ →
      c = c' ∨ ∃ n, (c = CAddIntsArg n [] ∧ c' = CAddFloatsArg n []) ∨
                    (c = CAddFloatsArg n [] ∧ c' = CAddIntsArg n [])).
Proof.
  split; [reflexivity|].
  intros c c' b Hb Hc Hc' Heq.
  destruct (invoke_objects c this σ b Hb) as (b1 & Hd1 & H1).
  destruct (invoke_objects c' this σ b Hb) as (b2 & Hd2 & H2).
  rewrite H1, H2, Hc, Hc' in Heq. injection Heq as Heq.
  apply app_inj_tail in Heq as [_ ->].
  rewrite Hd1 in Hd2. unfold extended in Hd2.
  injection Hd2 as _ _ _ _ Hargs. apply app_inv_head in Hargs.
  unfold attributes_of in Hargs. clear -Hc Hc' Hargs.
  destruct c; try discriminate; destruct c'; try discriminate;
    simpl in Hargs; injection Hargs; intros; subst; eauto 10.
Qed.

(** X17. Declared output types accumulate over calls: two OutputType calls
    declare what one call with the two vectors joined declares, and a call
    with an empty vector declares nothing. OutputShape adds one shape per
    call, an empty one for an empty vector. *)
Theorem OutputType_accumulates (ts1 ts2 : list DataType) (dims : list Z) (b : OpDefBuilder) :
  OutputType ts2 (OutputType ts1 b) = OutputType (ts1 ++ ts2) b ∧
  op_def_ (OutputType [] b) = op_def_ b ∧
  op_output_shape (op_def_ (OutputShape dims b)) = op_output_shape (op_def_ b) ++ [dims] ∧
  op_output_type (op_def_ (OutputShape dims b)) = op_output_type (op_def_ b).
Proof.
  unfold OutputType, OutputShape. simpl. rewrite !foldl_add_output_type, foldl_snoc.
  simpl. rewrite app_assoc. repeat split.
Qed.

End BuilderProperties.

(* ===================================================================== *)
(** * The further properties at concrete inputs                           *)
(* ===================================================================== *)

(** A test that obtains the registry, selects both layouts, runs the AddN
    operator on the CPU and through RunNet on the GPU, and synchronises:
    none of these calls is RunOp on the GPU device kind. *)
Lemma mem_type_is_kept_witness :
  let E := answering MACE_SUCCESS MACE_SUCCESS MACE_SUCCESS true in
  let cs := [CallGet 4 AFFINITY_NONE false; CallSetOCLImageAndBufferTestFlag;
             CallRunOp CPU; CallRunNet AddN_net_def GPU; CallSync] in
  forallb (λ c, negb (is_RunOp_GPU c)) cs = true ∧
  mem_type (final_state (perform_all E cs AddN_process)) = mem_type AddN_process.
Proof.
  cbv zeta. split; [reflexivity|].
  exact (mem_type_is_kept
           (answering MACE_SUCCESS MACE_SUCCESS MACE_SUCCESS true)
           [CallGet 4 AFFINITY_NONE false; CallSetOCLImageAndBufferTestFlag;
            CallRunOp CPU; CallRunNet AddN_net_def GPU; CallSync]
           AddN_process eq_refl).
Defined.

Lemma AddN_process_both_well_formed (E : Collaborators) :
  well_formed (AddN_process_both E).
Proof.
  unfold AddN_process_both.
  apply (stable_bind well_formed).
  - apply well_formed_Get.
  - intros _. apply well_formed_set_opencl_mem_types_.
  - exact I.
Qed.

(** Both layouts permitted and every stage succeeding: the buffer layout,
    set last, is the one left active. *)
Lemma RunOp_GPU_leaves_last_mem_type_witness :
  let E := answering MACE_SUCCESS MACE_SUCCESS MACE_SUCCESS true in
  let s := AddN_process_both E in
  well_formed s ∧ mem_type s = GPU_IMAGE ∧
  is_fatal (RunOp E GPU s) = false ∧
  mem_type (final_state (RunOp E GPU s)) =
    default (mem_type s) (last (mem_types_of (new_calls s (RunOp E GPU s)))) ∧
  mem_type (final_state (RunOp E GPU s)) = GPU_BUFFER.
Proof.
  cbv zeta.
  pose proof (AddN_process_both_well_formed
                (answering MACE_SUCCESS MACE_SUCCESS MACE_SUCCESS true)) as Hwf.
  split; [exact Hwf|]. split; [reflexivity|].
  destruct (RunOp_GPU_leaves_last_mem_type
              (answering MACE_SUCCESS MACE_SUCCESS MACE_SUCCESS true) _ Hwf) as [H1 H2].
  split; [exact H1|]. split; [exact H2|]. vm_compute. reflexivity.
Defined.

(** The run of the image cycle fails: the buffer layout is not tried. *)
Lemma RunOp_GPU_both_tries_image_first_witness :
  let E := answering MACE_SUCCESS MACE_SUCCESS MACE_INVALID_ARGS true in
  let s := final_state (Get_default E AddN_process) in
  let s' := final_state (SetOCLImageAndBufferTestFlag s) in
  well_formed s ∧ is_Some (instance s) ∧
  permitted_mem_types s' = [GPU_IMAGE; GPU_BUFFER] ∧
  mem_types_of (new_calls s' (RunOp E GPU s')) =
    (if decide (head (runs_of (new_calls s' (RunOp E GPU s'))) = Some MACE_SUCCESS)
     then [GPU_IMAGE; GPU_BUFFER] else [GPU_IMAGE]) ∧
  mem_types_of (new_calls s' (RunOp E GPU s')) = [GPU_IMAGE].
Proof.
  cbv zeta.
  assert (Hwf : well_formed
                  (final_state
                     (Get_default
                        (answering MACE_SUCCESS MACE_SUCCESS MACE_INVALID_ARGS true)
                        AddN_process))).
  { apply well_formed_Get. exact I. }
  assert (Hi : is_Some
                 (instance
                    (final_state
                       (Get_default
                          (answering MACE_SUCCESS MACE_SUCCESS MACE_INVALID_ARGS true)
                          AddN_process)))).
  { vm_compute. eauto. }
  split; [exact Hwf|]. split; [exact Hi|].
  destruct (RunOp_GPU_both_tries_image_first
              (answering MACE_SUCCESS MACE_SUCCESS MACE_INVALID_ARGS true) _ Hwf Hi)
    as [H1 H2].
  split; [exact H1|]. split; [exact H2|]. vm_compute. reflexivity.
Defined.

(** The executor of the AddN test built by a first Setup on the GPU device
    kind; its run then fails. *)
Lemma Run_returns_failure_witness :
  let E := answering MACE_SUCCESS MACE_SUCCESS MACE_OUT_OF_RESOURCES true in
  let s := final_state (Setup E GPU AddN_process) in
  let net := {| serial_net_def := AddN_net_def; serial_net_device := Some first_gpu |} in
  net_ s = Some net ∧ device_type_ s = GPU ∧
  returned (Run E s) = Some MACE_OUT_OF_RESOURCES ∧
  new_calls s (Run E s) = [EvRun MACE_OUT_OF_RESOURCES].
Proof.
  cbv zeta.
  assert (Hnet : net_ (final_state
                         (Setup (answering MACE_SUCCESS MACE_SUCCESS
                                   MACE_OUT_OF_RESOURCES true) GPU AddN_process)) =
                 Some {| serial_net_def := AddN_net_def;
                         serial_net_device := Some first_gpu |}).
  { vm_compute. reflexivity. }
  split; [exact Hnet|]. split; [vm_compute; reflexivity|].
  destruct (Run_returns_failure
              (answering MACE_SUCCESS MACE_SUCCESS MACE_OUT_OF_RESOURCES true) _ _ Hnet)
    as (H1 & H2 & _).
  - simpl. discriminate.
  - split; [exact H1 | exact H2].
Defined.

(** After a run on the GPU, the registry exists and has no device of the
    third kind. *)
Lemma GetDevice_other_kind_is_null_witness :
  let E := answering MACE_SUCCESS MACE_SUCCESS MACE_SUCCESS true in
  let s := final_state (perform_all E [CallRunOp GPU] AddN_process) in
  instance AddN_process = None ∧ is_Some (instance s) ∧
  returned (GetDevice HEXAGON s) = Some None ∧
  ∀ d, device_of d (final_state (GetDevice HEXAGON s)) = device_of d s.
Proof.
  cbv zeta. split; [reflexivity|].
  assert (Hi : is_Some
                 (instance
                    (final_state
                       (perform_all
                          (answering MACE_SUCCESS MACE_SUCCESS MACE_SUCCESS true)
                          [CallRunOp GPU] AddN_process)))).
  { vm_compute. eauto. }
  split; [exact Hi|].
  exact (GetDevice_other_kind_is_null
           (answering MACE_SUCCESS MACE_SUCCESS MACE_SUCCESS true)
           [CallRunOp GPU] AddN_process eq_refl Hi).
Defined.

(** The storage path is not set in the environment of [answering]: the GPU
    context has the empty path, before and after a test. *)
Lemma gpu_context_is_kept_witness :
  let E := answering MACE_SUCCESS MACE_SUCCESS MACE_SUCCESS true in
  let s1 := final_state (Get E 4 AFFINITY_NONE false AddN_process) in
  let s2 := final_state
              (perform_all E [CallSetOCLBufferTestFlag; CallRunOp GPU;
                              CallGetDevice HEXAGON] s1) in
  let ctx := {| gpu_context_id := 1; storage_path := "" |} in
  instance AddN_process = None ∧
  gpu_context s1 = Ok ctx s1 ∧ gpu_context s2 = Ok ctx s2.
Proof.
  cbv zeta. split; [reflexivity|].
  exact (gpu_context_is_kept
           (answering MACE_SUCCESS MACE_SUCCESS MACE_SUCCESS true)
           4 AFFINITY_NONE false
           [CallSetOCLBufferTestFlag; CallRunOp GPU; CallGetDevice HEXAGON]
           AddN_process eq_refl).
Defined.

(** RunOp on the third device kind takes the same path as on the CPU. *)
Lemma RunOp_other_device_witness :
  let E := answering MACE_SUCCESS MACE_SUCCESS MACE_INVALID_ARGS true in
  HEXAGON ≠ GPU ∧
  (∃ status, returned (RunOp E HEXAGON AddN_process) = Some status ∧
             runs_of (new_calls AddN_process (RunOp E HEXAGON AddN_process)) = [status]) ∧
  length (preallocations_of (new_calls AddN_process (RunOp E HEXAGON AddN_process))) = 1%nat ∧
  mem_types_of (new_calls AddN_process (RunOp E HEXAGON AddN_process)) = [] ∧
  mem_type (final_state (RunOp E HEXAGON AddN_process)) = mem_type AddN_process.
Proof.
  cbv zeta.
  assert (Hd : HEXAGON ≠ GPU) by discriminate.
  split; [exact Hd|].
  exact (RunOp_other_device
           (answering MACE_SUCCESS MACE_SUCCESS MACE_INVALID_ARGS true)
           HEXAGON AddN_process Hd).
Defined.

(* ===================================================================== *)
(** * Further properties: the selection of the memory types               *)
(* ===================================================================== *)

Section LayoutSelection.
Context (E : Collaborators).

Lemma permitted_kept_by_other_calls (types : list MemoryType) (cs : list ApiCall) (s : State) :
  forallb (λ c, negb (is_layout_setter c)) cs = true →
  permitted_mem_types s = types →
  permitted_mem_types (final_state (perform_all E cs s)) = types.
Proof.
  intros Hcs. apply (stable_perform_all E (λ s', permitted_mem_types s' = types)).
  - intros s1 s2 H. unfold permitted_mem_types. by rewrite H.
  - intros n p g s1 Hs.
    destruct (Get_returns E n p g s1) as (id & s' & HG & _ & _ & Hp).
    rewrite HG. simpl. congruence.
  - intros d s1 Hs. destruct (instance s1) as [r|] eqn:Hr.
    + destruct (GetDevice_returns d s1) as (s' & HD & _ & _ & Hp & _); [by eauto|].
      rewrite HD. simpl. congruence.
    + unfold GetDevice, this_instance, mbind, M_bind. by rewrite Hr.
  - intros c Hc Hset. exfalso.
    rewrite forallb_forall in Hcs. apply list_elem_of_In in Hc.
    specialize (Hcs c Hc). rewrite Hset in Hcs. discriminate.
Qed.

Lemma permitted_after_setter (types : list MemoryType) (s : State) :
  is_Some (instance s) →
  permitted_mem_types (final_state (set_opencl_mem_types_ types s)) = types.
Proof.
  intros [r Hr]. unfold set_opencl_mem_types_, this_instance, mbind, M_bind,
    permitted_mem_types. rewrite Hr. reflexivity.
Qed.

(** X19. A selection of the memory types replaces the earlier one, whatever
    it was, and stays in force through every later call that is not one of
    the three setters: buffer only, image only, or image then buffer. *)
Theorem layout_selection_persists (cs : list ApiCall) (s : State) :
  is_Some (instance s) →
  forallb (λ c, negb (is_layout_setter c)) cs = true →
  permitted_mem_types
    (final_state (perform_all E cs (final_state (SetOCLBufferTestFlag s)))) =
    [GPU_BUFFER] ∧
  permitted_mem_types
    (final_state (perform_all E cs (final_state (SetOCLImageTestFlag s)))) =
    [GPU_IMAGE] ∧
  permitted_mem_types
    (final_state (perform_all E cs (final_state (SetOCLImageAndBufferTestFlag s)))) =
    [GPU_IMAGE; GPU_BUFFER].
Proof.
  intros Hi Hcs.
  repeat split; apply permitted_kept_by_other_calls; try exact Hcs;
    by apply permitted_after_setter.
Qed.

End LayoutSelection.

(** The buffer layout selected after both had been, then a run on the CPU
    and a RunNet on the GPU. *)
Lemma layout_selection_persists_witness :
  let E := answering MACE_SUCCESS MACE_SUCCESS MACE_SUCCESS true in
  let s := AddN_process_both E in
  let cs := [CallRunOp CPU; CallRunNet AddN_net_def GPU; CallGetDevice HEXAGON] in
  is_Some (instance s) ∧
  forallb (λ c, negb (is_layout_setter c)) cs = true ∧
  permitted_mem_types
    (final_state (perform_all E cs (final_state (SetOCLBufferTestFlag s)))) =
    [GPU_BUFFER].
Proof.
  cbv zeta.
  assert (Hi : is_Some
                 (instance
                    (AddN_process_both
                       (answering MACE_SUCCESS MACE_SUCCESS MACE_SUCCESS true)))).
  { vm_compute. eauto. }
  split; [exact Hi|]. split; [reflexivity|].
  exact (proj1 (layout_selection_persists
                  (answering MACE_SUCCESS MACE_SUCCESS MACE_SUCCESS true)
                  [CallRunOp CPU; CallRunNet AddN_net_def GPU; CallGetDevice HEXAGON]
                  _ Hi eq_refl)).
Defined.
